(** * FitAdviceForm: the multipart ingestion and persistence pipeline

    A shallow embedding of the two deployment variants of the form backend:

    - the persisting variant, [server/index.js], which streams every uploaded
      file to the uploads directory and declares the email path [unique];
    - the metadata-only variant (the second server file), which records only
      descriptive metadata of each upload and declares the email path
      non-unique.

    JavaScript objects used as dictionaries ([body], [files], the argument of
    the model constructor, the lean documents returned by the listing query)
    are finite maps from property names to values.  The host platform (Node's
    [path] module, the clock, the disk, the database driver) is a record of
    parameters, [Env]; everything the handlers mutate (the file system, the
    collection, the console) lives in [World] and is threaded explicitly.
    The mail notifier ([sendEmail]) and the start-up ([connectDB],
    [startServer]) are modelled over small worlds of their own. *)

From Stdlib Require Import Sorting.Sorted Sorting.Permutation.
From stdpp Require Import gmap strings list fin_maps pretty sorting.

(** ** Values *)

(** One entry of a file list: [{originalname, mimetype, size, path, filename}].
    [path] and [filename] exist only in the persisting variant. *)
Record FileRecord := mkFileRecord {
  originalname : string;
  mimetype : string;
  size : nat;
  path : option string;
  filename : option string
}.

#[global] Instance FileRecord_eq_dec : EqDecision FileRecord.
Proof. solve_decision. Defined.

(** The value of a scalar part: decoded text, or a value that is not a
    string (the parser may deliver such values; the metadata-only variant
    tests [typeof part.value === 'string']). *)
Inductive FieldValue :=
| Text (s : string)
| Parsed (repr : string).

#[global] Instance FieldValue_eq_dec : EqDecision FieldValue.
Proof. solve_decision. Defined.

(** The JavaScript values that occur in a submission. *)
Inductive jsval :=
| JStr (s : string)
| JOther (repr : string)
| JFiles (l : list FileRecord)
| JNum (n : N)
| JDate (t : N)
| JId (n : N).

#[global] Instance jsval_eq_dec : EqDecision jsval.
Proof. solve_decision. Defined.

Definition js_of_field (v : FieldValue) : jsval :=
  match v with Text s => JStr s | Parsed r => JOther r end.

(** [typeof v === 'string']. *)
Definition is_string (v : FieldValue) : bool :=
  match v with Text _ => true | Parsed _ => false end.

(** Truthiness of a string: only the empty string is falsy. *)
Definition truthy (s : string) : bool :=
  match s with EmptyString => false | _ => true end.

(** [n || 0] on a number. *)
Definition or_zero (n : nat) : nat :=
  match n with O => 0 | _ => n end.

(** [h || fallback] on an optional header value. *)
Definition or_default (h : option string) (fallback : string) : string :=
  match h with
  | Some s => if truthy s then s else fallback
  | None => fallback
  end.

(** ** Property access on object literals *)

(** The properties every object literal inherits from [Object.prototype]. *)
Definition object_prototype_keys : list string :=
  [ "constructor"; "__defineGetter__"; "__defineSetter__"; "hasOwnProperty";
    "__lookupGetter__"; "__lookupSetter__"; "isPrototypeOf";
    "propertyIsEnumerable"; "toString"; "valueOf"; "__proto__";
    "toLocaleString" ].

(** The result of reading [o[k]]: an own property, a value inherited from
    the prototype (a function or the prototype object: truthy, no [push]),
    or [undefined]. *)
Inductive prop_read (A : Type) :=
| Own (a : A)
| Inherited
| Undefined.
Arguments Own {A} a.
Arguments Inherited {A}.
Arguments Undefined {A}.

Definition js_get {A} (o : gmap string A) (k : string) : prop_read A :=
  match o !! k with
  | Some a => Own a
  | None => if bool_decide (k ∈ object_prototype_keys) then Inherited else Undefined
  end.

(** [o[k] = v]. Assigning to [__proto__] runs the inherited setter and
    creates no own property. *)
Definition js_set {A} (o : gmap string A) (k : string) (v : A) : gmap string A :=
  if bool_decide (k = "__proto__") then o else <[k := v]> o.

(** ** Multipart parts *)

(** A file part's stream: the bytes it delivers until it ends, the number of
    bytes read from it so far, and the error it emits instead of [end], if
    any. *)
Record FileStream := mkFileStream {
  content : list Byte.byte;
  bytesRead : nat;
  failure : option string
}.

Inductive Part :=
| FilePart (fieldname filename mimetype : string) (file : FileStream)
| FieldPart (fieldname : string) (value : FieldValue).

Definition part_fieldname (p : Part) : string :=
  match p with
  | FilePart f _ _ _ => f
  | FieldPart f _ => f
  end.

Definition is_file (p : Part) : bool :=
  match p with FilePart _ _ _ _ => true | FieldPart _ _ => false end.

(** An inbound request: the parts the iterator yields, the error it throws
    after them (client abort, malformed body), and the provenance. *)
Record Request := mkRequest {
  parts : list Part;
  parts_fault : option string;
  ip : string;
  user_agent : option string
}.

(** ** Errors and replies *)

Inductive Error :=
| StreamError (detail : string)
| StorageError (detail : string)
| PersistenceError (detail : string)
| TypeError (detail : string).

Definition error_message (e : Error) : string :=
  match e with
  | StreamError d | StorageError d | PersistenceError d | TypeError d => d
  end.

Inductive Payload :=
| SubmitOk (message : string) (id : N)
| ListOk (count : nat) (data : list (gmap string jsval))
| Failure (message : string).

Record Reply := mkReply { status : nat; payload : Payload }.

(** ** The world *)

(** A stored document: the system attributes added by the schema options
    and the schema paths of the submission. *)
Record StoredDoc := mkStoredDoc {
  doc_id : N;
  createdAt : N;
  updatedAt : N;
  version : N;
  fields : gmap string jsval
}.

Record World := mkWorld {
  fs : gmap string (list Byte.byte);
  store : list StoredDoc;
  console : list (string * string);
  ticks : nat;
  next_id : N
}.

Record Env := mkEnv {
  cwd : string;
  path_join : string → string → string;
  path_basename : string → string;
  clock : nat → N;
  disk_fault : string → option string;
  db_fault : gmap string jsval → option string;
  find_fault : option string
}.

Definition set_fs (f : gmap string (list Byte.byte)) (w : World) : World :=
  mkWorld f (store w) (console w) (ticks w) (next_id w).
Definition set_store (s : list StoredDoc) (w : World) : World :=
  mkWorld (fs w) s (console w) (ticks w) (next_id w).
Definition set_console (c : list (string * string)) (w : World) : World :=
  mkWorld (fs w) (store w) c (ticks w) (next_id w).
Definition set_ticks (n : nat) (w : World) : World :=
  mkWorld (fs w) (store w) (console w) n (next_id w).
Definition set_next_id (n : N) (w : World) : World :=
  mkWorld (fs w) (store w) (console w) (ticks w) n.

(** ** A state monad with two kinds of failure

    [Throw] is an exception raised inside the handler's [try] block (a
    rejected awaited promise included). [Uncaught] is an error raised outside
    the handler's promise chain: an [error] event emitted on an emitter that
    has no listener is thrown by the platform at process level. *)
Inductive Outcome (A : Type) :=
| Ok (a : A)
| Throw (e : Error)
| Uncaught (e : Error).
Arguments Ok {A} a.
Arguments Throw {A} e.
Arguments Uncaught {A} e.

Definition M (A : Type) : Type := World → Outcome A * World.

Definition ret {A} (a : A) : M A := fun w => (Ok a, w).
Definition throw {A} (e : Error) : M A := fun w => (Throw e, w).
Definition uncaught {A} (e : Error) : M A := fun w => (Uncaught e, w).

Definition bind {A B} (m : M A) (k : A → M B) : M B :=
  fun w =>
    match m w with
    | (Ok a, w') => k a w'
    | (Throw e, w') => (Throw e, w')
    | (Uncaught e, w') => (Uncaught e, w')
    end.

Definition try_catch {A} (m : M A) (h : Error → M A) : M A :=
  fun w =>
    match m w with
    | (Throw e, w') => h e w'
    | r => r
    end.

#[global] Instance M_ret : MRet M := @ret.
#[global] Instance M_bind : MBind M := fun A B k m => bind m k.

Definition log (prefix detail : string) : M unit :=
  fun w => (Ok tt, set_console (console w ++ [(prefix, detail)]) w).

(** [Date.now()]: the next reading of the clock. *)
Definition Date_now (env : Env) : M N :=
  fun w => (Ok (clock env (ticks w)), set_ticks (S (ticks w)) w).

(** ** The schema *)

(** The six document categories, the keys of the [files] literal. *)
Definition categories : list string :=
  [ "identityDocument"; "residencyProof"; "qualifications"; "businessPermit";
    "liabilityInsurance"; "companyStatutes" ].

(** The two provenance paths, set by the handler itself. *)
Definition provenance_paths : list string := [ "ipAddress"; "userAgent" ].

Inductive SchemaType := SString | SNumber | SFiles.

(** [formSchema]: the paths of the model and their types, in the order of
    the declaration. *)
Definition formSchema : list (string * SchemaType) :=
  [ ("firstName", SString); ("lastName", SString); ("email", SString);
    ("phone", SString); ("address", SString); ("city", SString);
    ("zipCode", SString); ("country", SString); ("taxNumber", SString);
    ("vatNumber", SString); ("bankDetails", SString);
    ("hourlyRate", SNumber); ("halfHourRate", SNumber);
    ("identityDocument", SFiles); ("residencyProof", SFiles);
    ("qualifications", SFiles); ("businessPermit", SFiles);
    ("liabilityInsurance", SFiles); ("companyStatutes", SFiles);
    ("ipAddress", SString); ("userAgent", SString) ].

Definition schema_paths : list string := formSchema.*1.

(** The two deployment variants differ in the [unique] option of the email
    path. *)
Inductive Variant := Persisting | MetadataOnly.

Definition email_unique (v : Variant) : bool :=
  match v with Persisting => true | MetadataOnly => false end.

(** ** The submission handler: shared pieces *)

(** [const body = {}]. *)
Definition body_init : gmap string FieldValue := ∅.

(** [const files = { identityDocument: [], ..., companyStatutes: [] }]. *)
Definition files_init : gmap string (list FileRecord) :=
  <["identityDocument" := []]> (<["residencyProof" := []]>
  (<["qualifications" := []]> (<["businessPermit" := []]>
  (<["liabilityInsurance" := []]> (<["companyStatutes" := []]> ∅))))).

(** [files[k].push(fd)] once [files[k]] has been read as the array [l]. *)
Definition push (files : gmap string (list FileRecord)) (k : string)
    (l : list FileRecord) (fd : FileRecord) : gmap string (list FileRecord) :=
  <[k := l ++ [fd]]> files.

(** [for await (const part of parts) { ... }]: the body runs on every part
    in arrival order; the iterator's own error, if any, is thrown after the
    parts it yielded. *)
Fixpoint for_await {S} (step : S → Part → M S) (acc : S) (ps : list Part)
    (fault : option string) : M S :=
  match ps with
  | [] =>
      match fault with
      | Some d => throw (StreamError d)
      | None => ret acc
      end
  | p :: rest => acc' ← step acc p; for_await step acc' rest fault
  end.

(** [{ ...body, ...files, ipAddress, userAgent }]: later entries overwrite
    earlier ones. *)
Definition assemble (body : gmap string FieldValue)
    (files : gmap string (list FileRecord)) (ipAddress userAgent : string)
    : gmap string jsval :=
  <["userAgent" := JStr userAgent]>
    (<["ipAddress" := JStr ipAddress]>
       ((JFiles <$> files) ∪ (js_of_field <$> body))).

(** [new FormSubmission(raw)]: the schema is strict, only its paths are
    kept; the document gets its identifier at construction. The values are
    kept as submitted: the casts of the two [Number] paths are the driver's,
    their failure is part of [db_fault], and no statement below depends on
    them. *)
Definition strict (raw : gmap string jsval) : gmap string jsval :=
  filter (λ kv, kv.1 ∈ schema_paths) raw.

Definition FormSubmission_new (raw : gmap string jsval)
    : M (N * gmap string jsval) :=
  fun w => (Ok (next_id w, strict raw), set_next_id (N.succ (next_id w)) w).

(** The unique index on [email]: a document whose email key (absent
    included) equals that of a stored document is a duplicate. *)
Definition email_taken (s : list StoredDoc) (f : gmap string jsval) : bool :=
  existsb (λ d, bool_decide (fields d !! "email" = f !! "email")) s.

(** [submission.save()]. The driver's own failures (server unreachable,
    validation and cast errors of the document) are the oracle [db_fault];
    the uniqueness constraint is checked against the collection. On success
    the document is inserted with both timestamps set to the current time. *)
Definition save (v : Variant) (env : Env) (raw : gmap string jsval)
    (doc : N * gmap string jsval) : M unit :=
  fun w =>
    match db_fault env raw with
    | Some d => (Throw (PersistenceError d), w)
    | None =>
        if email_unique v && email_taken (store w) doc.2
        then (Throw (PersistenceError "E11000 duplicate key error"), w)
        else
          let t := clock env (ticks w) in
          (Ok tt,
           set_ticks (S (ticks w))
             (set_store (store w ++ [mkStoredDoc doc.1 t t 0 doc.2]) w))
    end.

Definition internal_error : Reply :=
  mkReply 500 (Failure "Internal server error").

(** ** The persisting variant *)

(** [path.join(process.cwd(), 'uploads')]. *)
Definition UPLOADS_DIR (env : Env) : string :=
  path_join env (cwd env) "uploads".

(** [path.join(UPLOADS_DIR, `${Date.now()}-${part.filename}`)]. *)
Definition savePath (env : Env) (now : N) (name : string) : string :=
  path_join env (UPLOADS_DIR env) (pretty now +:+ "-" +:+ name).

(** The stream once it has been read to its end. *)
Definition drain (f : FileStream) : FileStream :=
  mkFileStream (content f) (length (content f)) (failure f).

(** [part.file.pipe(writeStream)] awaited through a promise that resolves on
    the part stream's [end] and rejects on its [error]. The write stream has
    no [error] listener: a failed write is not turned into a rejection. The
    bytes delivered by the part stream are in the file once the promise
    settles (write buffering is not modelled). *)
Definition pipe_and_wait (env : Env) (savePath : string) (f : FileStream)
    : M FileStream :=
  fun w =>
    match disk_fault env savePath with
    | Some d => (Uncaught (StorageError d), w)
    | None =>
        let w' := set_fs (<[savePath := content f]> (fs w)) w in
        match failure f with
        | Some d => (Throw (StreamError d), w')
        | None => (Ok (drain f), w')
        end
    end.

(** The persisting File Sink: lines 139-153 of the handler. *)
Definition sink_persisting (env : Env) (name mime : string) (f : FileStream)
    : M FileRecord :=
  now ← Date_now env;
  let savePath := savePath env now name in
  f' ← pipe_and_wait env savePath f;
  mret (mkFileRecord name mime (or_zero (bytesRead f')) (Some savePath)
          (Some (path_basename env savePath))).

Definition step_persisting (env : Env)
    (acc : gmap string FieldValue * gmap string (list FileRecord)) (p : Part)
    : M (gmap string FieldValue * gmap string (list FileRecord)) :=
  let (body, files) := acc in
  match p with
  | FilePart fieldname name mime f =>
      fileData ← sink_persisting env name mime f;
      match js_get files fieldname with
      | Own l => mret (body, push files fieldname l fileData)
      | Inherited =>
          throw (TypeError "files[part.fieldname].push is not a function")
      | Undefined => mret (body, files)
      end
  | FieldPart fieldname value => mret (js_set body fieldname value, files)
  end.

Definition inspect (e : Error) : string :=
  match e with
  | StreamError d => "StreamError: " +:+ d
  | StorageError d => "StorageError: " +:+ d
  | PersistenceError d => "MongoServerError: " +:+ d
  | TypeError d => "TypeError: " +:+ d
  end.

Definition receive_persisting (env : Env) (req : Request)
    : M (gmap string FieldValue * gmap string (list FileRecord)) :=
  for_await (step_persisting env) (body_init, files_init)
    (parts req) (parts_fault req).

Definition submit_form_persisting (env : Env) (req : Request) : M Reply :=
  try_catch
    ('(body, files) ← receive_persisting env req;
     let raw := assemble body files (ip req)
                  (or_default (user_agent req) "Unknown") in
     submission ← FormSubmission_new raw;
     save Persisting env raw submission;;
     mret (mkReply 200 (SubmitOk "Form submitted successfully!" submission.1)))
    (fun error =>
       log "Error submitting form:" (inspect error);;
       mret internal_error).

(** ** The metadata-only variant *)

(** The metadata-only File Sink: the record is built from the part as it
    is, the stream is not read. *)
Definition sink_metadata (name mime : string) (f : FileStream) : FileRecord :=
  mkFileRecord name mime (bytesRead f) None None.

Definition step_metadata
    (acc : gmap string FieldValue * gmap string (list FileRecord)) (p : Part)
    : M (gmap string FieldValue * gmap string (list FileRecord)) :=
  let (body, files) := acc in
  match p with
  | FilePart fieldname name mime f =>
      if truthy fieldname then
        match js_get files fieldname with
        | Own l => mret (body, push files fieldname l (sink_metadata name mime f))
        | Inherited =>
            throw (TypeError "files[part.fieldname].push is not a function")
        | Undefined =>
            throw (TypeError
                     "Cannot read properties of undefined (reading 'push')")
        end
      else mret (body, files)
  | FieldPart fieldname value =>
      if truthy fieldname && is_string value
      then mret (js_set body fieldname value, files)
      else mret (body, files)
  end.

Definition receive_metadata (req : Request)
    : M (gmap string FieldValue * gmap string (list FileRecord)) :=
  for_await step_metadata (body_init, files_init) (parts req) (parts_fault req).

Definition submit_form_metadata (env : Env) (req : Request) : M Reply :=
  try_catch
    ('(body, files) ← receive_metadata req;
     let raw := assemble body files (ip req)
                  (or_default (user_agent req) "Unknown User Agent") in
     submission ← FormSubmission_new raw;
     save MetadataOnly env raw submission;;
     mret (mkReply 200 (SubmitOk "Formulaire soumis avec succès" submission.1)))
    (fun error =>
       log "❌ Internal server error:" (error_message error);;
       mret internal_error).

Definition submit_form (v : Variant) (env : Env) (req : Request) : M Reply :=
  match v with
  | Persisting => submit_form_persisting env req
  | MetadataOnly => submit_form_metadata env req
  end.

Definition receive (v : Variant) (env : Env) (req : Request)
    : M (gmap string FieldValue * gmap string (list FileRecord)) :=
  match v with
  | Persisting => receive_persisting env req
  | MetadataOnly => receive_metadata req
  end.

(** The literal used when the user-agent header is absent. *)
Definition ua_fallback (v : Variant) : string :=
  match v with
  | Persisting => "Unknown"
  | MetadataOnly => "Unknown User Agent"
  end.

(** ** The listing handler *)

(** [.lean()]: a stored document as a plain object. *)
Definition lean (d : StoredDoc) : gmap string jsval :=
  <["_id" := JId (doc_id d)]>
    (<["createdAt" := JDate (createdAt d)]>
       (<["updatedAt" := JDate (updatedAt d)]>
          (<["__v" := JNum (version d)]> (fields d)))).

(** [.select('-__v -updatedAt -ipAddress -userAgent')]. *)
Definition excluded : list string :=
  [ "__v"; "updatedAt"; "ipAddress"; "userAgent" ].

Definition select (o : gmap string jsval) : gmap string jsval :=
  foldr delete o excluded.

(** [.sort({ createdAt: -1 })]: newest first. *)
Definition newer_first (a b : StoredDoc) : Prop :=
  (createdAt b ≤ createdAt a)%N.

#[global] Instance newer_first_dec a b : Decision (newer_first a b).
Proof. unfold newer_first. apply _. Defined.

Definition find_all (env : Env) : M (list (gmap string jsval)) :=
  fun w =>
    match find_fault env with
    | Some d => (Throw (PersistenceError d), w)
    | None => (Ok ((select ∘ lean) <$> merge_sort newer_first (store w)), w)
    end.

Definition get_submissions (v : Variant) (env : Env) : M Reply :=
  try_catch
    (submissions ← find_all env;
     mret (mkReply 200 (ListOk (length submissions) submissions)))
    (fun error =>
       log "Fetch error:"
         (match v with
          | Persisting => inspect error
          | MetadataOnly => error_message error
          end);;
       mret (mkReply 500 (Failure "Failed to fetch submissions"))).

(** [setErrorHandler] and [setNotFoundHandler]. *)
Definition error_handler : Reply :=
  mkReply 500 (Failure "An unexpected error occurred").

Definition not_found_handler : Reply :=
  mkReply 404 (Failure "Endpoint not found").

(** ** The mail notifier *)

(** The argument of [resend.emails.send]. *)
Record Message := mkMessage {
  msg_from : string;
  msg_to : option string;
  msg_subject : string;
  msg_html : string
}.

(** What the notifier reads from its surroundings: [process.env], and the
    answer of the mail provider to a message ([inl]: the promise resolves
    with that data; [inr]: it rejects with an error of that message). *)
Record MailEnv := mkMailEnv {
  process_env : gmap string string;
  resend_send : Message → string + string
}.

(** What the notifier changes: the calls made to the provider and the
    console. *)
Record MailWorld := mkMailWorld {
  mail_calls : list Message;
  mail_console : list (string * string)
}.

(** How the promise of [sendEmail] settles. *)
Inductive Settled :=
| Resolved
| Rejected (message : string).

(** A [String] path of a submission: a string, or undefined. *)
Definition text_of (o : gmap string jsval) (k : string) : option string :=
  match o !! k with
  | Some (JStr s) => Some s
  | _ => None
  end.

(** [`${x}`] in a template literal. *)
Definition interpolate (x : option string) : string := default "undefined" x.

Definition email_html (submission : gmap string jsval) : string :=
  "
        <h3>Nouvelle inscription</h3>
        <p><strong>Nom:</strong> "
  +:+ interpolate (text_of submission "firstName") +:+ " "
  +:+ interpolate (text_of submission "lastName") +:+ "</p>
        <p><strong>Email:</strong> "
  +:+ interpolate (text_of submission "email") +:+ "</p>
        <p>Merci pour votre soumission.</p>
      ".

Definition missing_key : string := "❌ RESEND_API_KEY manquant dans .env".

(** Truthiness of an environment variable: unset and empty are falsy. *)
Definition is_set (x : option string) : bool :=
  match x with
  | Some s => truthy s
  | None => false
  end.

Definition sendEmail (menv : MailEnv) (submission : gmap string jsval)
    (w : MailWorld) : Settled * MailWorld :=
  if negb (is_set (process_env menv !! "RESEND_API_KEY"))
  then (Rejected missing_key, w)
  else
    let message :=
      mkMessage (or_default (process_env menv !! "EMAIL_FROM") "admin@example.com")
        (text_of submission "email") "✅ Formulaire reçu !"
        (email_html submission) in
    let calls := mail_calls w ++ [message] in
    match resend_send menv message with
    | inl data =>
        (Resolved,
         mkMailWorld calls
           (mail_console w ++ [("📧 Email envoyé via Resend:", data)]))
    | inr err =>
        (Rejected err,
         mkMailWorld calls
           (mail_console w ++ [("❌ Échec de l’envoi de l’e-mail:", err)]))
    end.

(** ** Start-up *)

(** The calls the start-up makes to the database driver and to the
    server. *)
Inductive BootCall :=
| CallConnect (uri : option string)
| CallReady
| CallListen (port : string) (host : option string).

(** The surroundings of the start-up: [process.env] and the error message,
    if any, with which each awaited call fails. *)
Record BootEnv := mkBootEnv {
  boot_vars : gmap string string;
  connect_fault : option string → option string;
  ready_fault : option string;
  listen_fault : string → option string → option string
}.

Record BootWorld := mkBootWorld {
  boot_calls : list BootCall;
  boot_console : list string
}.

(** The process after the start-up: serving, or ended by [process.exit]. *)
Inductive Process :=
| Running
| Exited (code : nat).

(** [process.env.PORT || 5001], as it prints. *)
Definition PORT (benv : BootEnv) : string :=
  or_default (boot_vars benv !! "PORT") "5001".

(** [process.env.FRONTEND_URL || 'http://localhost:5173']. *)
Definition FRONTEND_URL (benv : BootEnv) : string :=
  or_default (boot_vars benv !! "FRONTEND_URL") "http://localhost:5173".

Definition MONGODB_URI (benv : BootEnv) : option string :=
  boot_vars benv !! "MONGODB_URI".

Definition boot_call (c : BootCall) (w : BootWorld) : BootWorld :=
  mkBootWorld (boot_calls w ++ [c]) (boot_console w).

Definition boot_log (line : string) (w : BootWorld) : BootWorld :=
  mkBootWorld (boot_calls w) (boot_console w ++ [line]).

Definition connectDB (benv : BootEnv) (w : BootWorld) : Process * BootWorld :=
  let w1 := boot_call (CallConnect (MONGODB_URI benv)) w in
  match connect_fault benv (MONGODB_URI benv) with
  | None => (Running, boot_log "✅ MongoDB connected successfully" w1)
  | Some m => (Exited 1, boot_log ("❌ MongoDB connection error: " +:+ m) w1)
  end.

(** The host the variant listens on: the persisting variant passes none,
    the metadata-only variant the wildcard. *)
Definition listen_host (v : Variant) : option string :=
  match v with
  | Persisting => None
  | MetadataOnly => Some "0.0.0.0"
  end.

Definition shown_host (v : Variant) : string :=
  match v with
  | Persisting => "localhost"
  | MetadataOnly => "0.0.0.0"
  end.

Definition start_failed (m : string) (w : BootWorld) : Process * BootWorld :=
  (Exited 1, boot_log ("❌ Failed to start server: " +:+ m) w).

(** The [try] block of [startServer] from the call of [listen] on. *)
Definition listen_and_report (v : Variant) (benv : BootEnv) (w : BootWorld)
    : Process * BootWorld :=
  let w1 := boot_call (CallListen (PORT benv) (listen_host v)) w in
  match listen_fault benv (PORT benv) (listen_host v) with
  | Some m => start_failed m w1
  | None =>
      (Running,
       boot_log ("🌐 Allowed frontend: " +:+ FRONTEND_URL benv)
         (boot_log ("🚀 Server running on http://" +:+ shown_host v +:+ ":"
                    +:+ PORT benv) w1))
  end.

Definition startServer (v : Variant) (benv : BootEnv) (w : BootWorld)
    : Process * BootWorld :=
  match connectDB benv w with
  | (Exited c, w1) => (Exited c, w1)
  | (Running, w1) =>
      match v with
      | Persisting => listen_and_report v benv w1
      | MetadataOnly =>
          let w2 := boot_call CallReady w1 in
          match ready_fault benv with
          | Some m => start_failed m w2
          | None => listen_and_report v benv w2
          end
      end
  end.

(** ** Vocabulary of the statements *)

(** The uploads a request carries under a given field name, in arrival
    order: client file name, declared type and stream. *)
Definition uploads_under (c : string) (ps : list Part)
    : list (string * string * FileStream) :=
  omap (λ p, match p with
             | FilePart f n m s =>
                 if bool_decide (f = c) then Some (n, m, s) else None
             | FieldPart _ _ => None
             end) ps.

(** What the persisting sink records for an upload. *)
Definition recorded_persisting (u : string * string * FileStream)
    (r : FileRecord) : Prop :=
  originalname r = u.1.1 ∧ mimetype r = u.1.2 ∧
  size r = length (content u.2) ∧ is_Some (path r) ∧ is_Some (filename r).

(** What the metadata-only sink records for an upload. *)
Definition recorded_metadata (u : string * string * FileStream)
    (r : FileRecord) : Prop :=
  originalname r = u.1.1 ∧ mimetype r = u.1.2 ∧
  size r = bytesRead u.2 ∧ path r = None ∧ filename r = None.

Definition recorded (v : Variant) :=
  match v with
  | Persisting => recorded_persisting
  | MetadataOnly => recorded_metadata
  end.

(** The request was accepted: the handler replied with the success shape. *)
Definition accepted (r : Outcome Reply) (id : N) : Prop :=
  ∃ m, r = Ok (mkReply 200 (SubmitOk m id)).

(** The body of the loop of a variant. *)
Definition step (v : Variant) (env : Env) :=
  match v with
  | Persisting => step_persisting env
  | MetadataOnly => step_metadata
  end.

(** The message of the success reply. *)
Definition success_message (v : Variant) : string :=
  match v with
  | Persisting => "Form submitted successfully!"
  | MetadataOnly => "Formulaire soumis avec succès"
  end.

(** The console line written by the [catch] block. *)
Definition catch_line (v : Variant) (e : Error) : string * string :=
  match v with
  | Persisting => ("Error submitting form:", inspect e)
  | MetadataOnly => ("❌ Internal server error:", error_message e)
  end.

(** What the [catch] block does with an error. *)
Definition caught (v : Variant) (e : Error) (w : World)
    : Outcome Reply * World :=
  (Ok internal_error, set_console (console w ++ [catch_line v e]) w).

(** The record handed to the model constructor. *)
Definition submission_of (v : Variant) (req : Request)
    (body : gmap string FieldValue) (files : gmap string (list FileRecord))
    : gmap string jsval :=
  assemble body files (ip req) (or_default (user_agent req) (ua_fallback v)).

(** The part is a scalar part named [k]. *)
Definition writes_scalar (k : string) (p : Part) : bool :=
  match p with
  | FieldPart f _ => bool_decide (f = k)
  | FilePart _ _ _ _ => false
  end.


(** The number of file parts among [ps]. *)
Definition count_files (ps : list Part) : nat :=
  length (filter (λ p, is_file p = true) ps).

(** The save paths the persisting loop uses for the file parts of [ps] when
    it starts at clock reading [n]: one reading per file part. *)
Fixpoint save_paths (env : Env) (n : nat) (ps : list Part) : list string :=
  match ps with
  | [] => []
  | FilePart _ name _ _ :: rest =>
      savePath env (clock env n) name :: save_paths env (S n) rest
  | FieldPart _ _ :: rest => save_paths env n rest
  end.

(** The order of two returned records by their creation time. *)
Definition record_newer_first (a b : gmap string jsval) : Prop :=
  ∃ ta tb, a !! "createdAt" = Some (JDate ta) ∧
           b !! "createdAt" = Some (JDate tb) ∧ (tb ≤ ta)%N.

(** Every path of the first world is a path of the second. *)
Definition disk_grows (w1 w2 : World) : Prop := dom (fs w1) ⊆ dom (fs w2).


(** The scalar paths of the schema that are declared [String]. *)
Definition string_paths : list string :=
  [ "firstName"; "lastName"; "email"; "phone"; "address"; "city"; "zipCode";
    "country"; "taxNumber"; "vatNumber"; "bankDetails" ].

(** The part is one both variants treat alike: a file part, or a scalar
    part with a non-empty name and a text value. *)
Definition plain (p : Part) : bool :=
  match p with
  | FilePart _ _ _ _ => true
  | FieldPart k x => truthy k && is_string x
  end.

(** The scalar map as a fold over the scalar parts. *)
Definition scalars_of (body : gmap string FieldValue) (ps : list Part)
    : gmap string FieldValue :=
  foldl (λ b p, match p with
                | FieldPart k x => js_set b k x
                | FilePart _ _ _ _ => b
                end) body ps.

(** The clock readings of the second world are not behind those of the
    first. *)
Definition clock_advances (w1 w2 : World) : Prop := ticks w1 ≤ ticks w2.

(** ** A concrete platform and concrete requests for the examples *)

(** [path.join] and [path.basename] on plain segments. *)
Definition posix_join (a b : string) : string := a +:+ "/" +:+ b.

Fixpoint last_segment (acc s : string) : string :=
  match s with
  | EmptyString => acc
  | String c rest =>
      if Ascii.eqb c (Ascii.ascii_of_nat 47) then last_segment "" rest
      else last_segment (acc +:+ String c "") rest
  end.

Definition posix_basename (p : string) : string := last_segment "" p.

(** A healthy platform: the clock advances by one millisecond per reading,
    the disk and the database take everything. *)
Definition test_env : Env :=
  mkEnv "/srv/app" posix_join posix_basename
    (λ n, 1700000000000 + N.of_nat n)%N (λ _, None) (λ _, None) None.


Definition empty_world : World := mkWorld ∅ [] [] 0 0.

(** A three-byte upload none of whose bytes has been read yet. *)
Definition three_bytes : FileStream :=
  mkFileStream [Byte.x25; Byte.x50; Byte.x44] 0 None.

(** Anna Keller's submission: three scalars and one identity document. *)
Definition anna : Request :=
  mkRequest
    [ FieldPart "firstName" (Text "Anna");
      FieldPart "lastName" (Text "Keller");
      FieldPart "email" (Text "a@x.com");
      FilePart "identityDocument" "id.pdf" "application/pdf" three_bytes ]
    None "10.0.0.1" (Some "curl/8.0").

(** The same with one more upload, under a field name that is not a
    category. *)
Definition anna_with_avatar : Request :=
  mkRequest (parts anna ++ [FilePart "avatar" "me.png" "image/png" three_bytes])
    None "10.0.0.1" (Some "curl/8.0").

(** A submission without uploads. *)
Definition scalars_only : Request :=
  mkRequest
    [ FieldPart "firstName" (Text "Anna");
      FieldPart "email" (Text "a@x.com") ]
    None "10.0.0.1" None.

(** A second submission with the same address. *)
Definition anna_again : Request :=
  mkRequest
    [ FieldPart "firstName" (Text "Anne");
      FieldPart "email" (Text "a@x.com") ]
    None "10.0.0.2" None.

(** A client that names a scalar field [ipAddress]. *)
Definition spoofed : Request :=
  mkRequest [FieldPart "ipAddress" (Text "6.6.6.6")] None "10.0.0.1" None.


Definition scalars_body : gmap string FieldValue :=
  <["email" := Text "a@x.com"]> (<["firstName" := Text "Anna"]> ∅).

Definition second_body : gmap string FieldValue :=
  <["email" := Text "a@x.com"]> (<["firstName" := Text "Anne"]> ∅).

Definition id_record_persisting : FileRecord :=
  mkFileRecord "id.pdf" "application/pdf" 3
    (Some "/srv/app/uploads/1700000000000-id.pdf")
    (Some "1700000000000-id.pdf").

Definition id_record_metadata : FileRecord :=
  mkFileRecord "id.pdf" "application/pdf" 0 None None.

Definition world_after_id : World :=
  set_fs {["/srv/app/uploads/1700000000000-id.pdf" := content three_bytes]}
    (set_ticks 1 empty_world).

Definition anna_body : gmap string FieldValue :=
  <["email" := Text "a@x.com"]>
    (<["lastName" := Text "Keller"]> (<["firstName" := Text "Anna"]> ∅)).

Definition anna_files : gmap string (list FileRecord) :=
  <["identityDocument" := [id_record_persisting]]> files_init.



(** The collection after two accepted submissions. *)
Definition two_submissions : World :=
  (submit_form MetadataOnly test_env anna_again
     (submit_form MetadataOnly test_env anna empty_world).2).2.

Definition listed_two : list (gmap string jsval) :=
  (select ∘ lean) <$> merge_sort newer_first (store two_submissions).

Definition first_listed : gmap string jsval := default ∅ (head listed_two).

(** A request cut after Anna's parts. *)
Definition anna_cut : Request :=
  mkRequest (parts anna) (Some "Premature close") "10.0.0.1" None.

(** An upload whose stream errors after two bytes. *)
Definition broken_upload : FileStream :=
  mkFileStream [Byte.x25; Byte.x50] 0 (Some "aborted").

Definition anna_aborted : Request :=
  mkRequest
    [ FieldPart "email" (Text "a@x.com");
      FilePart "identityDocument" "id.pdf" "application/pdf" broken_upload ]
    None "10.0.0.1" None.

(** The platform when the database refuses every document. *)
Definition db_down_env : Env :=
  mkEnv "/srv/app" posix_join posix_basename
    (λ n, 1700000000000 + N.of_nat n)%N (λ _, None)
    (λ _, Some "connect ECONNREFUSED") None.

(** A provider that takes every message, one that refuses every message,
    and two configurations. *)
Definition provider_up (m : Message) : string + string := inl "{ id: 'e1' }".


Definition anna_stored : gmap string jsval :=
  <["email" := JStr "a@x.com"]> (<["firstName" := JStr "Anna"]> ∅).

Definition no_mail : MailWorld := mkMailWorld [] [].

(** * Properties *)

(** ** Basic facts *)

Ltac unfold_M :=
  unfold mbind, M_bind, mret, M_ret, bind, ret, throw, uncaught, try_catch,
    log, Date_now, FormSubmission_new in *.

Lemma js_get_Own {A} (o : gmap string A) k a :
  js_get o k = Own a ↔ o !! k = Some a.
Proof.
  unfold js_get. destruct (o !! k); [|case_bool_decide]; naive_solver.
Qed.

Lemma js_get_Undefined {A} (o : gmap string A) k :
  js_get o k = Undefined → o !! k = None.
Proof. unfold js_get. destruct (o !! k); [done|by case_bool_decide]. Qed.

Lemma or_zero_id n : or_zero n = n.
Proof. by destruct n. Qed.

Lemma truthy_true s : truthy s = true ↔ s ≠ "".
Proof. destruct s; naive_solver. Qed.

Lemma uploads_under_cons c p ps :
  uploads_under c (p :: ps) = uploads_under c [p] ++ uploads_under c ps.
Proof. unfold uploads_under. simpl. by case_match. Qed.

Lemma files_init_lookup c :
  c ∈ categories → files_init !! c = Some [].
Proof.
  unfold categories. rewrite !elem_of_cons, elem_of_nil.
  intros H. repeat destruct H as [->|H]; try done.
Qed.

Lemma files_init_None c :
  c ∉ categories → files_init !! c = None.
Proof.
  unfold categories, files_init. rewrite !not_elem_of_cons.
  intros (?&?&?&?&?&?&_). by rewrite !lookup_insert_ne.
Qed.

Lemma categories_not_prototype c :
  c ∈ categories → (c ∉ object_prototype_keys) ∧ c ≠ "".
Proof.
  unfold categories. rewrite !elem_of_cons, elem_of_nil.
  intros H. repeat destruct H as [->|H]; try done; (split; [compute_done|done]).
Qed.

(** ** The sinks *)

Lemma sink_persisting_Ok env name mime f w fd w' :
  sink_persisting env name mime f w = (Ok fd, w') →
  let sp := savePath env (clock env (ticks w)) name in
  fd = mkFileRecord name mime (length (content f)) (Some sp)
         (Some (path_basename env sp)) ∧
  disk_fault env sp = None ∧ failure f = None ∧
  w' = set_fs (<[sp := content f]> (fs w)) (set_ticks (S (ticks w)) w).
Proof.
  unfold sink_persisting, pipe_and_wait. unfold_M. simpl.
  destruct (disk_fault env _); [done|].
  destruct (failure f); [done|]. simpl. rewrite or_zero_id.
  by intros [= <- <-].
Qed.

(** ** One iteration of the loop *)

Lemma receive_unfold v env req :
  receive v env req =
  for_await (step v env) (body_init, files_init) (parts req) (parts_fault req).
Proof. by destruct v. Qed.

Lemma step_persisting_Ok env body files p w body' files' w' :
  step_persisting env (body, files) p w = (Ok (body', files'), w') →
  match p with
  | FieldPart k v => body' = js_set body k v ∧ files' = files ∧ w' = w
  | FilePart k name mime f =>
      let sp := savePath env (clock env (ticks w)) name in
      let fd := mkFileRecord name mime (length (content f)) (Some sp)
                  (Some (path_basename env sp)) in
      body' = body ∧ disk_fault env sp = None ∧ failure f = None ∧
      w' = set_fs (<[sp := content f]> (fs w)) (set_ticks (S (ticks w)) w) ∧
      ((∃ l, files !! k = Some l ∧ files' = <[k := l ++ [fd]]> files) ∨
       (files !! k = None ∧ (k ∉ object_prototype_keys) ∧ files' = files))
  end.
Proof.
  destruct p as [k name mime f|k v]; simpl.
  - unfold mbind, M_bind, bind.
    destruct (sink_persisting env name mime f w) as [[fd| |] w1] eqn:Hs;
      [|done..].
    apply sink_persisting_Ok in Hs as (-> & Hd & Hf & ->).
    destruct (js_get files k) as [l| |] eqn:Hg; unfold_M; [|done|].
    + intros [= <- <- <-]. apply js_get_Own in Hg. unfold push. eauto 10.
    + intros [= <- <- <-]. repeat split; try done. right.
      split; [by apply js_get_Undefined|]. split; [|done].
      unfold js_get in Hg. destruct (files !! k); [done|].
      case_bool_decide; done.
  - unfold_M. by intros [= <- <- <-].
Qed.

Lemma step_metadata_Ok body files p w body' files' w' :
  step_metadata (body, files) p w = (Ok (body', files'), w') →
  w' = w ∧
  match p with
  | FieldPart k v =>
      files' = files ∧
      body' = if truthy k && is_string v then js_set body k v else body
  | FilePart k name mime f =>
      body' = body ∧
      ((k = "" ∧ files' = files) ∨
       (k ≠ "" ∧ ∃ l, files !! k = Some l ∧
          files' = <[k := l ++ [sink_metadata name mime f]]> files))
  end.
Proof.
  destruct p as [k name mime f|k v]; simpl.
  - destruct (truthy k) eqn:Hk.
    + apply truthy_true in Hk.
      destruct (js_get files k) as [l| |] eqn:Hg; unfold_M; [|done..].
      intros [= <- <- <-]. apply js_get_Own in Hg. unfold push. eauto 10.
    + unfold_M. intros [= <- <- <-]. destruct k; [|done]. eauto.
  - destruct (truthy k && is_string v); unfold_M; by intros [= <- <- <-].
Qed.

(** What one iteration does to the file list of a given key, in either
    variant. *)
Lemma step_files v env body files p w body' files' w' c :
  step v env (body, files) p w = (Ok (body', files'), w') →
  c ≠ "" →
  (files !! c = None → files' !! c = None) ∧
  (∀ l0, files !! c = Some l0 →
     ∃ l', files' !! c = Some (l0 ++ l') ∧
           Forall2 (recorded v) (uploads_under c [p]) l').
Proof.
  intros Hstep Hc. destruct v; simpl in Hstep.
  - apply step_persisting_Ok in Hstep.
    destruct p as [k name mime f|k v]; simpl in *.
    + destruct Hstep as (-> & _ & _ & -> & [(l & Hl & ->)|(Hl & _ & ->)]).
      * destruct (decide (k = c)) as [->|Hne].
        -- rewrite lookup_insert_eq. split; [congruence|].
           intros l0 ?. simplify_eq. eexists. split; [done|].
           rewrite bool_decide_eq_true_2 by done.
           constructor; [|constructor]. repeat split; simpl; eauto.
        -- rewrite lookup_insert_ne by done. split; [done|].
           intros l0 ->. exists []. rewrite app_nil_r. split; [done|].
           rewrite bool_decide_eq_false_2 by done. constructor.
      * split; [done|]. intros l0 Hl0. exists []. rewrite app_nil_r.
        split; [done|]. rewrite bool_decide_eq_false_2 by congruence.
        constructor.
    + destruct Hstep as (_ & -> & _). split; [done|]. intros l0 ->.
      exists []. rewrite app_nil_r. split; [done|constructor].
  - apply step_metadata_Ok in Hstep as [-> Hstep].
    destruct p as [k name mime f|k v]; simpl in *.
    + destruct Hstep as (-> & [(-> & ->)|(Hk & l & Hl & ->)]).
      * split; [done|]. intros l0 ->. exists []. rewrite app_nil_r.
        split; [done|]. rewrite bool_decide_eq_false_2 by done. constructor.
      * destruct (decide (k = c)) as [->|Hne].
        -- rewrite lookup_insert_eq. split; [congruence|].
           intros l0 ?. simplify_eq. eexists. split; [done|].
           rewrite bool_decide_eq_true_2 by done.
           constructor; [|constructor]. by repeat split.
        -- rewrite lookup_insert_ne by done. split; [done|].
           intros l0 ->. exists []. rewrite app_nil_r. split; [done|].
           rewrite bool_decide_eq_false_2 by done. constructor.
    + destruct Hstep as (-> & _). split; [done|]. intros l0 ->.
      exists []. rewrite app_nil_r. split; [done|constructor].
Qed.

(** ** The whole loop *)

Lemma for_await_cons {S} (stp : S → Part → M S) acc p ps fault w r w' :
  for_await stp acc (p :: ps) fault w = (Ok r, w') →
  ∃ acc1 w1, stp acc p w = (Ok acc1, w1) ∧
             for_await stp acc1 ps fault w1 = (Ok r, w').
Proof.
  simpl. unfold mbind, M_bind, bind.
  destruct (stp acc p w) as [[acc1| |] w1]; [eauto|done..].
Qed.

Lemma for_await_nil {S} (stp : S → Part → M S) acc fault w r w' :
  for_await stp acc [] fault w = (Ok r, w') →
  fault = None ∧ r = acc ∧ w' = w.
Proof. simpl. destruct fault; unfold_M; [done|]. by intros [= <- <-]. Qed.

Lemma for_await_files v env ps : ∀ body files w body' files' w' fault c,
  for_await (step v env) (body, files) ps fault w = (Ok (body', files'), w') →
  c ≠ "" →
  (files !! c = None → files' !! c = None) ∧
  (∀ l0, files !! c = Some l0 →
     ∃ l', files' !! c = Some (l0 ++ l') ∧
           Forall2 (recorded v) (uploads_under c ps) l').
Proof.
  induction ps as [|p ps IH]; intros body files w body' files' w' fault c H Hc.
  - apply for_await_nil in H as (_ & [= <- <-] & _). split; [done|].
    intros l0 ->. exists []. rewrite app_nil_r. split; [done|constructor].
  - apply for_await_cons in H as ([body1 files1] & w1 & Hstep & Hrest).
    eapply step_files in Hstep as [HN HS]; [|done].
    eapply IH in Hrest as [HN' HS']; [|done].
    split; [eauto|]. intros l0 Hl0.
    destruct (HS _ Hl0) as (l1 & Hl1 & HF1).
    destruct (HS' _ Hl1) as (l2 & Hl2 & HF2).
    exists (l1 ++ l2). rewrite app_assoc. split; [done|].
    rewrite uploads_under_cons. by apply Forall2_app.
Qed.

Lemma receive_files v env req w body files w' c :
  receive v env req w = (Ok (body, files), w') →
  (c ∈ categories →
     ∃ l, files !! c = Some l ∧
          Forall2 (recorded v) (uploads_under c (parts req)) l) ∧
  (c ∉ categories → c ≠ "" → files !! c = None).
Proof.
  rewrite receive_unfold. intros H. split.
  - intros Hc. destruct (categories_not_prototype _ Hc) as [_ Hne].
    eapply for_await_files in H as [_ HS]; [|done].
    destruct (HS [] (files_init_lookup _ Hc)) as (l & Hl & HF). eauto.
  - intros Hc Hne. eapply for_await_files in H as [HN _]; [|done].
    by apply HN, files_init_None.
Qed.

(** ** The handler by cases *)

Lemma submit_form_cases v env req w :
  submit_form v env req w =
  match receive v env req w with
  | (Ok (body, files), w1) =>
      let raw := submission_of v req body files in
      let w2 := set_next_id (N.succ (next_id w1)) w1 in
      match db_fault env raw with
      | Some d => caught v (PersistenceError d) w2
      | None =>
          if email_unique v && email_taken (store w1) (strict raw)
          then caught v (PersistenceError "E11000 duplicate key error") w2
          else
            let t := clock env (ticks w1) in
            (Ok (mkReply 200 (SubmitOk (success_message v) (next_id w1))),
             set_ticks (S (ticks w1))
               (set_store
                  (store w1 ++ [mkStoredDoc (next_id w1) t t 0 (strict raw)])
                  w2))
      end
  | (Throw e, w1) => caught v e w1
  | (Uncaught e, w1) => (Uncaught e, w1)
  end.
Proof.
  destruct v; simpl;
    [unfold submit_form_persisting|unfold submit_form_metadata];
    unfold mbind, M_bind, bind, try_catch;
    [destruct (receive_persisting env req w) as [[[body files]| |] w1]
    |destruct (receive_metadata req w) as [[[body files]| |] w1]];
    try done; unfold_M; unfold save, submission_of; simpl;
    destruct (db_fault env _); try done;
    destruct (email_taken _ _); done.
Qed.

(** ** What the loop leaves alone *)

Lemma step_frame v env acc p w :
  store (step v env acc p w).2 = store w ∧
  console (step v env acc p w).2 = console w ∧
  next_id (step v env acc p w).2 = next_id w.
Proof.
  destruct acc as [body files], v, p as [k name mime f|k x]; simpl;
    unfold sink_persisting, pipe_and_wait; unfold_M; simpl;
    repeat (case_match; simplify_eq/=; try done); done.
Qed.

Lemma for_await_frame v env ps : ∀ acc fault w,
  store (for_await (step v env) acc ps fault w).2 = store w ∧
  console (for_await (step v env) acc ps fault w).2 = console w ∧
  next_id (for_await (step v env) acc ps fault w).2 = next_id w.
Proof.
  induction ps as [|p ps IH]; intros acc fault w; simpl.
  - destruct fault; done.
  - unfold mbind, M_bind, bind.
    pose proof (step_frame v env acc p w) as Hs.
    destruct (step v env acc p w) as [[acc1| |] w1]; simpl in *; [|done..].
    destruct (IH acc1 fault w1) as (-> & -> & ->). done.
Qed.

Lemma receive_frame v env req w :
  store (receive v env req w).2 = store w ∧
  console (receive v env req w).2 = console w ∧
  next_id (receive v env req w).2 = next_id w.
Proof. rewrite receive_unfold. apply for_await_frame. Qed.

(** ** The assembled record *)

Lemma category_in_schema c : c ∈ categories → c ∈ schema_paths.
Proof.
  unfold categories. rewrite !elem_of_cons, elem_of_nil.
  intros H. repeat destruct H as [->|H]; try done; compute_done.
Qed.

Lemma category_not_provenance c :
  c ∈ categories → c ≠ "ipAddress" ∧ c ≠ "userAgent".
Proof.
  unfold categories. rewrite !elem_of_cons, elem_of_nil.
  intros H. repeat destruct H as [->|H]; done.
Qed.

Lemma strict_lookup raw k :
  k ∈ schema_paths → strict raw !! k = raw !! k.
Proof.
  intros Hk. unfold strict. destruct (raw !! k) as [x|] eqn:Hr.
  - by apply map_lookup_filter_Some.
  - apply map_lookup_filter_None. left. done.
Qed.

Lemma strict_Some raw k x :
  strict raw !! k = Some x → raw !! k = Some x ∧ k ∈ schema_paths.
Proof. unfold strict. by intros ?%map_lookup_filter_Some. Qed.

Lemma assemble_category body files i u c l :
  c ∈ categories → files !! c = Some l →
  assemble body files i u !! c = Some (JFiles l).
Proof.
  intros Hc Hl. destruct (category_not_provenance _ Hc). unfold assemble.
  rewrite !lookup_insert_ne by done.
  apply lookup_union_Some_l. by rewrite lookup_fmap, Hl.
Qed.

Lemma assemble_files_inv body files i u k l :
  assemble body files i u !! k = Some (JFiles l) → files !! k = Some l.
Proof.
  unfold assemble. intros H.
  destruct (decide (k = "userAgent")) as [->|?];
    [by rewrite lookup_insert_eq in H|].
  rewrite lookup_insert_ne in H by done.
  destruct (decide (k = "ipAddress")) as [->|?];
    [by rewrite lookup_insert_eq in H|].
  rewrite lookup_insert_ne in H by done.
  apply lookup_union_Some_raw in H as [H|[_ H]].
  - rewrite lookup_fmap in H. destruct (files !! k); by simplify_eq/=.
  - rewrite lookup_fmap in H. destruct (body !! k) as [[]|]; by simplify_eq/=.
Qed.

(** ** Accepted requests *)

Lemma accepted_inv v env req w id :
  accepted (submit_form v env req w).1 id →
  ∃ body files w1 t,
    receive v env req w = (Ok (body, files), w1) ∧
    db_fault env (submission_of v req body files) = None ∧
    email_unique v
      && email_taken (store w) (strict (submission_of v req body files)) = false ∧
    store (submit_form v env req w).2 =
      store w ++ [mkStoredDoc id t t 0 (strict (submission_of v req body files))].
Proof.
  intros [m Hacc]. rewrite submit_form_cases in *.
  pose proof (receive_frame v env req w) as (Hst & _ & _).
  destruct (receive v env req w) as [[[body files]| |] w1]; simpl in *;
    [|done..].
  destruct (db_fault env _) eqn:Hdb; [done|]. rewrite Hst in *.
  destruct (email_unique v && email_taken _ _) eqn:Hu; [done|].
  simpl in *. simplify_eq. eauto 10.
Qed.

(** C4. For every request the pipeline accepts, in either variant, the
    submission that was persisted holds, for each of the six categories, a
    file list with exactly one record per file part submitted under that
    category's field name, in arrival order; no other key of the submission
    holds file records, so file parts under unrecognized names contribute
    none. *)
Theorem accepted_file_lists v env req w id :
  accepted (submit_form v env req w).1 id →
  ∃ d, store (submit_form v env req w).2 = store w ++ [d] ∧ doc_id d = id ∧
    (∀ c, c ∈ categories →
       ∃ l, fields d !! c = Some (JFiles l) ∧
            length l = length (uploads_under c (parts req)) ∧
            Forall2 (recorded v) (uploads_under c (parts req)) l) ∧
    (∀ k l, fields d !! k = Some (JFiles l) → k ∈ categories).
Proof.
  intros (body & files & w1 & t & Hrecv & _ & _ & Hst)%accepted_inv.
  eexists. split; [exact Hst|]. split; [done|]. simpl. split.
  - intros c Hc.
    destruct (receive_files v env req w body files w1 c Hrecv) as [Hin _].
    destruct (Hin Hc) as (l & Hl & HF). exists l.
    rewrite strict_lookup by by apply category_in_schema.
    split; [by apply assemble_category|].
    split; [|done]. symmetry. by eapply Forall2_length.
  - intros k l [Hraw Hk]%strict_Some. apply assemble_files_inv in Hraw.
    destruct (decide (k ∈ categories)) as [|Hn]; [done|]. exfalso.
    destruct (receive_files v env req w body files w1 k Hrecv) as [_ Hout].
    rewrite Hout in Hraw; [done|done|]. intros ->. revert Hk. compute_done.
Qed.

Lemma accepted_file_lists_witness :
  ∃ d, store (submit_form Persisting test_env anna_with_avatar empty_world).2
         = store empty_world ++ [d] ∧ doc_id d = 0%N ∧
    (∀ c, c ∈ categories →
       ∃ l, fields d !! c = Some (JFiles l) ∧
            length l = length (uploads_under c (parts anna_with_avatar)) ∧
            Forall2 (recorded Persisting)
              (uploads_under c (parts anna_with_avatar)) l) ∧
    (∀ k l, fields d !! k = Some (JFiles l) → k ∈ categories).
Proof.
  apply (accepted_file_lists Persisting test_env anna_with_avatar empty_world 0).
  exists "Form submitted successfully!". vm_compute. reflexivity.
Defined.

Lemma for_await_fields v env ps :
  Forall (λ p, is_file p = false) ps →
  ∀ body files w,
    ∃ body', for_await (step v env) (body, files) ps None w
             = (Ok (body', files), w).
Proof.
  induction 1 as [|p ps Hp _ IH]; intros body files w; simpl.
  - by eexists.
  - destruct p as [|k x]; [done|]. unfold mbind, M_bind, bind.
    destruct v; simpl; [|destruct (truthy k && is_string x)]; unfold_M;
      apply IH.
Qed.

(** C5. Every record the assembler hands to the model constructor, in either
    variant, has the six file lists present (as lists, possibly empty), and
    so has the document built from it. A request without file parts whose
    part stream ends normally is received without error and assembled with
    six empty lists, and when the store takes the document the request is
    accepted and the persisted submission has the six lists present and
    empty. *)
Theorem six_file_lists_present v env req w :
  (∀ body files w1, receive v env req w = (Ok (body, files), w1) →
     ∀ c, c ∈ categories →
       ∃ l, submission_of v req body files !! c = Some (JFiles l) ∧
            strict (submission_of v req body files) !! c = Some (JFiles l)) ∧
  (Forall (λ p, is_file p = false) (parts req) → parts_fault req = None →
     ∃ body, receive v env req w = (Ok (body, files_init), w) ∧
       let raw := submission_of v req body files_init in
       (∀ c, c ∈ categories → raw !! c = Some (JFiles [])) ∧
       (db_fault env raw = None →
        email_unique v && email_taken (store w) (strict raw) = false →
        ∃ d, accepted (submit_form v env req w).1 (doc_id d) ∧
             store (submit_form v env req w).2 = store w ++ [d] ∧
             ∀ c, c ∈ categories → fields d !! c = Some (JFiles []))).
Proof.
  split.
  - intros body files w1 Hrecv c Hc.
    destruct (receive_files v env req w body files w1 c Hrecv) as [Hin _].
    destruct (Hin Hc) as (l & Hl & _). exists l.
    rewrite strict_lookup by by apply category_in_schema.
    split; by apply assemble_category.
  - intros Hnofile Hfault.
    destruct (for_await_fields v env _ Hnofile body_init files_init w)
      as [body Hloop].
    exists body. rewrite receive_unfold, Hfault. split; [done|].
    assert (∀ c, c ∈ categories →
              submission_of v req body files_init !! c = Some (JFiles []))
      as Hraw.
    { intros c Hc. apply assemble_category; [done|].
      by apply files_init_lookup. }
    simpl. split; [done|]. intros Hdb Huniq.
    rewrite submit_form_cases, receive_unfold, Hfault, Hloop. simpl.
    rewrite Hdb, Huniq. simpl. eexists (mkStoredDoc _ _ _ _ _).
    split; [by eexists|]. split; [done|]. simpl. intros c Hc.
    rewrite strict_lookup by by apply category_in_schema. by apply Hraw.
Qed.

Lemma six_file_lists_present_witness :
  ∃ d, accepted (submit_form MetadataOnly test_env scalars_only empty_world).1
         (doc_id d) ∧
       store (submit_form MetadataOnly test_env scalars_only empty_world).2
         = store empty_world ++ [d] ∧
       ∀ c, c ∈ categories → fields d !! c = Some (JFiles []).
Proof.
  destruct (six_file_lists_present MetadataOnly test_env scalars_only
              empty_world) as [_ H].
  destruct H as (body & Hrecv & _ & Hsave).
  - repeat constructor.
  - reflexivity.
  - apply Hsave.
    + reflexivity.
    + reflexivity.
Defined.

(** ** The scalar map *)

Lemma js_set_lookup {A} (o : gmap string A) k v :
  k ≠ "__proto__" → js_set o k v !! k = Some v.
Proof.
  intros Hk. unfold js_set. rewrite bool_decide_eq_false_2 by done.
  apply lookup_insert_eq.
Qed.

Lemma js_set_lookup_ne {A} (o : gmap string A) k k' v :
  k ≠ k' → js_set o k v !! k' = o !! k'.
Proof.
  intros Hk. unfold js_set. case_bool_decide; [done|].
  by apply lookup_insert_ne.
Qed.

Lemma step_scalar v env body files k s w :
  k ≠ "" →
  step v env (body, files) (FieldPart k (Text s)) w
  = (Ok (js_set body k (Text s), files), w).
Proof.
  intros Hk%truthy_true. destruct v; simpl; [done|]. by rewrite Hk.
Qed.

Lemma step_body_other v env body files p w body' files' w' k :
  step v env (body, files) p w = (Ok (body', files'), w') →
  writes_scalar k p = false → body' !! k = body !! k.
Proof.
  intros Hstep Hp. destruct v; simpl in Hstep.
  - apply step_persisting_Ok in Hstep. destruct p as [|f x]; simpl in *.
    + by destruct Hstep as (-> & _).
    + destruct Hstep as (-> & _). apply js_set_lookup_ne.
      by apply bool_decide_eq_false in Hp.
  - apply step_metadata_Ok in Hstep as [_ Hstep].
    destruct p as [|f x]; simpl in *.
    + by destruct Hstep as (-> & _).
    + destruct Hstep as (_ & ->). destruct (truthy f && is_string x); [|done].
      apply js_set_lookup_ne. by apply bool_decide_eq_false in Hp.
Qed.

Lemma for_await_body_other v env k ps :
  Forall (λ p, writes_scalar k p = false) ps →
  ∀ body files fault w body' files' w',
    for_await (step v env) (body, files) ps fault w = (Ok (body', files'), w') →
    body' !! k = body !! k.
Proof.
  induction 1 as [|p ps Hp _ IH]; intros body files fault w body' files' w' H.
  - by apply for_await_nil in H as (_ & [= <- <-] & _).
  - apply for_await_cons in H as ([body1 files1] & w1 & Hstep & Hrest).
    rewrite (IH _ _ _ _ _ _ _ Hrest). by eapply step_body_other.
Qed.

Lemma for_await_app {S} (stp : S → Part → M S) ps : ∀ acc p qs fault w r w',
  for_await stp acc (ps ++ p :: qs) fault w = (Ok r, w') →
  ∃ acc1 w1 acc2 w2,
    for_await stp acc ps None w = (Ok acc1, w1) ∧
    stp acc1 p w1 = (Ok acc2, w2) ∧
    for_await stp acc2 qs fault w2 = (Ok r, w').
Proof.
  induction ps as [|q ps IH]; intros acc p qs fault w r w' H.
  - apply for_await_cons in H as (acc2 & w2 & Hstep & Hrest).
    exists acc, w, acc2, w2. done.
  - rewrite <-app_comm_cons in H.
    apply for_await_cons in H as (acc0 & w0 & Hstep & Hrest).
    apply IH in Hrest as (acc1 & w1 & acc2 & w2 & H1 & H2 & H3).
    exists acc1, w1, acc2, w2. split; [|done].
    simpl. unfold mbind, M_bind, bind. by rewrite Hstep.
Qed.

Lemma assemble_scalar body files i u k :
  k ∉ provenance_paths → files !! k = None →
  assemble body files i u !! k = js_of_field <$> body !! k.
Proof.
  unfold provenance_paths. rewrite !not_elem_of_cons. intros (? & ? & _) Hf.
  unfold assemble. rewrite !lookup_insert_ne by done.
  rewrite lookup_union_r by by rewrite lookup_fmap, Hf.
  apply lookup_fmap.
Qed.




(** ** Unrecognized uploads *)

(** C1. The metadata-only handler does not drop a file part whose field
    name is not a category: [files[part.fieldname]] is [undefined] and the
    call of [push] on it throws, so the request fails with the generic
    error and nothing is stored. The same request without the extra part is
    accepted, and the persisting handler accepts it with the part. *)
Theorem unrecognized_upload_fails_metadata_only :
  submit_form MetadataOnly test_env anna_with_avatar empty_world
  = (Ok internal_error,
     set_console
       [("❌ Internal server error:",
         "Cannot read properties of undefined (reading 'push')")]
       empty_world) ∧
  accepted (submit_form MetadataOnly test_env anna empty_world).1 0 ∧
  accepted (submit_form Persisting test_env anna_with_avatar empty_world).1 0.
Proof.
  split; [vm_compute; reflexivity|].
  split; eexists; vm_compute; reflexivity.
Qed.

(** In the metadata-only variant every file part with a non-empty field
    name outside the six categories makes the iteration throw. *)
Lemma step_metadata_unrecognized body files k name mime f w :
  k ≠ "" → files !! k = None →
  ∃ d, step_metadata (body, files) (FilePart k name mime f) w
       = (Throw (TypeError d), w).
Proof.
  intros Hk%truthy_true Hf. simpl. rewrite Hk. unfold js_get. rewrite Hf.
  case_bool_decide; by eexists.
Qed.

(** ** Sizes *)




(** ** Failures and replies *)

(** Whatever is thrown while the parts are received ends in the [catch]
    block: the reply is the generic one and the detail goes to the
    console. *)
Lemma thrown_errors_collapse v env req w e w1 :
  receive v env req w = (Throw e, w1) →
  submit_form v env req w
  = (Ok internal_error, set_console (console w1 ++ [catch_line v e]) w1).
Proof. intros H. by rewrite submit_form_cases, H. Qed.

(** A failed save ends in the [catch] block as well and leaves the
    collection as it was. *)
Lemma persistence_errors_collapse v env req w body files w1 :
  receive v env req w = (Ok (body, files), w1) →
  (is_Some (db_fault env (submission_of v req body files)) ∨
   email_unique v
     && email_taken (store w) (strict (submission_of v req body files)) = true) →
  ∃ d, submit_form v env req w
       = caught v (PersistenceError d) (set_next_id (N.succ (next_id w1)) w1) ∧
       store (submit_form v env req w).2 = store w.
Proof.
  intros Hrecv Hfail. rewrite submit_form_cases.
  pose proof (receive_frame v env req w) as (Hst & _ & _).
  rewrite Hrecv in *. simpl in *. rewrite Hst.
  destruct (db_fault env _) as [d|]; [by exists d|].
  destruct Hfail as [[? ?]| ->]; [done|]. by eexists.
Qed.

(** Every reply of the submission handler is the success shape or the one
    generic error; in the latter case the collection is unchanged. *)
Lemma replies_are_generic v env req w r w' :
  submit_form v env req w = (Ok r, w') →
  (∃ id, r = mkReply 200 (SubmitOk (success_message v) id)) ∨
  (r = internal_error ∧ store w' = store w).
Proof.
  rewrite submit_form_cases.
  pose proof (receive_frame v env req w) as (Hst & _ & _).
  destruct (receive v env req w) as [[[body files]| |] w1]; simpl in *;
    [| |done].
  - destruct (db_fault env _); [by intros [= <- <-]; right|].
    destruct (email_unique v && email_taken _ _); intros [= <- <-]; eauto.
  - intros [= <- <-]. by right.
Qed.

Lemma step_uncaught v env acc p w e w' :
  step v env acc p w = (Uncaught e, w') →
  v = Persisting ∧ ∃ d, e = StorageError d.
Proof.
  destruct acc as [body files], v, p as [k name mime f|k x]; simpl;
    unfold sink_persisting, pipe_and_wait; unfold_M; simpl;
    repeat (case_match; simplify_eq/=; try done);
    intros; simplify_eq; eauto.
Qed.

Lemma for_await_uncaught v env ps : ∀ acc fault w e w',
  for_await (step v env) acc ps fault w = (Uncaught e, w') →
  v = Persisting ∧ ∃ d, e = StorageError d.
Proof.
  induction ps as [|p ps IH]; intros acc fault w e w'; simpl.
  - by destruct fault.
  - unfold mbind, M_bind, bind.
    destruct (step v env acc p w) as [[acc1| |] w1] eqn:Hstep; [|done|].
    + apply IH.
    + intros [= <- <-]. by eapply step_uncaught.
Qed.

(** The only error that leaves the handler without a reply is a failed
    write of an upload, in the persisting variant. *)
Lemma uncaught_is_storage v env req w e w' :
  submit_form v env req w = (Uncaught e, w') →
  v = Persisting ∧ ∃ d, e = StorageError d.
Proof.
  rewrite submit_form_cases.
  destruct (receive v env req w) as [[[body files]| |] w1] eqn:Hrecv.
  - simpl. destruct (db_fault env _); [done|].
    by destruct (email_unique v && email_taken _ _).
  - done.
  - intros [= <- <-]. rewrite receive_unfold in Hrecv.
    by eapply for_await_uncaught.
Qed.

(** In the metadata-only variant a request with a file part whose field
    name is neither empty nor a category is never accepted: whatever else it
    carries, the reply is the generic error and nothing is stored. *)
Lemma metadata_only_rejects_unrecognized env req w pre k name mime f post :
  parts req = pre ++ FilePart k name mime f :: post →
  k ∉ categories → k ≠ "" →
  (submit_form MetadataOnly env req w).1 = Ok internal_error ∧
  store (submit_form MetadataOnly env req w).2 = store w.
Proof.
  intros Hparts Hk Hne. rewrite submit_form_cases.
  pose proof (receive_frame MetadataOnly env req w) as (Hst & _ & _).
  destruct (receive MetadataOnly env req w) as [[[body files]| |] w1] eqn:Hrecv;
    simpl in Hst |- *.
  - exfalso. rewrite receive_unfold, Hparts in Hrecv.
    apply for_await_app in Hrecv
      as ([b1 f1] & wa & [b2 f2] & wb & H1 & Hstep & _).
    destruct (for_await_files MetadataOnly env pre _ _ _ _ _ _ _ k H1 Hne)
      as [HN _].
    destruct (step_metadata_unrecognized b1 f1 k name mime f wa Hne) as [d Hd];
      [by apply HN, files_init_None|].
    unfold step in Hstep. by rewrite Hd in Hstep.
  - done.
  - rewrite receive_unfold in Hrecv.
    by apply for_await_uncaught in Hrecv as [? _].
Qed.


(** ** Files on disk *)

Lemma count_files_cons p ps :
  count_files (p :: ps) = (if is_file p then 1 else 0) + count_files ps.
Proof.
  unfold count_files. by destruct p.
Qed.

Section Disk.
  Context (env : Env).

(** What a completed run of the persisting loop does to the clock, to the
    disk and to the records. *)
Lemma for_await_disk ps : ∀ body files fault w body' files' w',
  for_await (step_persisting env) (body, files) ps fault w
    = (Ok (body', files'), w') →
  ticks w' = ticks w + count_files ps ∧
  (∀ k, k ∉ save_paths env (ticks w) ps → fs w' !! k = fs w !! k) ∧
  (∀ c, files !! c = None → files' !! c = None) ∧
  (∀ c l r, files' !! c = Some l → r ∈ l →
     (∃ l0, files !! c = Some l0 ∧ r ∈ l0) ∨
     (∃ sp, sp ∈ save_paths env (ticks w) ps ∧ path r = Some sp)).
Proof.
  induction ps as [|p ps IH]; intros body files fault w body' files' w' H.
  - apply for_await_nil in H as (_ & [= <- <-] & ->).
    split; [unfold count_files; simpl; lia|]. split; [done|].
    split; [done|]. eauto.
  - apply for_await_cons in H as ([body1 files1] & w1 & Hstep & Hrest).
    apply IH in Hrest as (Ht & Hfs & Hnone & Hrec).
    apply step_persisting_Ok in Hstep. rewrite count_files_cons.
    destruct p as [k name mime f|k x]; simpl in *.
    + destruct Hstep as (-> & _ & _ & -> & Hfiles). simpl in *.
      split; [lia|]. split; [|split].
      * intros k' [Hne Hk']%not_elem_of_cons. rewrite Hfs by done.
        by rewrite lookup_insert_ne.
      * intros c Hc. apply Hnone.
        destruct Hfiles as [(l1 & Hl1 & ->)|(_ & _ & ->)]; [|done].
        rewrite lookup_insert_ne; [done|congruence].
      * intros c l r Hl Hr.
        destruct (Hrec c l r Hl Hr) as [(l0 & Hl0 & Hr0)|(sp & Hsp & Hp)];
          [|right; exists sp; split; [by right|done]].
        destruct Hfiles as [(l1 & Hl1 & ->)|(_ & _ & ->)]; [|eauto].
        destruct (decide (k = c)) as [->|Hne].
        -- rewrite lookup_insert_eq in Hl0. simplify_eq.
           apply elem_of_app in Hr0 as [Hr0| ->%list_elem_of_singleton];
             [eauto|].
           right. eexists. split; [by left|done].
        -- rewrite lookup_insert_ne in Hl0 by done. eauto.
    + destruct Hstep as (_ & -> & ->). split; [lia|]. done.
Qed.

End Disk.



(** ** Email uniqueness *)

Lemma email_taken_false s f :
  email_taken s f = false ↔
  Forall (λ d, fields d !! "email" ≠ f !! "email") s.
Proof.
  unfold email_taken. induction s as [|d s IH]; simpl.
  - split; [constructor|done].
  - rewrite orb_false_iff, IH, Forall_cons, bool_decide_eq_false. done.
Qed.

Lemma filter_none {A} (P : A → Prop) `{∀ x, Decision (P x)} (l : list A) :
  Forall (λ x, ¬ P x) l → filter P l = [].
Proof.
  induction 1 as [|x l Hx _ IH]; [done|].
  by rewrite filter_cons, decide_False.
Qed.

Lemma email_taken_app s1 s2 f :
  email_taken (s1 ++ s2) f = email_taken s1 f || email_taken s2 f.
Proof. unfold email_taken. apply existsb_app. Qed.

Lemma submission_email v req body files w env w1 e :
  receive v env req w = (Ok (body, files), w1) →
  body !! "email" = Some (Text e) →
  strict (submission_of v req body files) !! "email" = Some (JStr e).
Proof.
  intros Hrecv Hb.
  rewrite strict_lookup by compute_done.
  destruct (receive_files v env req w body files w1 "email" Hrecv) as [_ Hout].
  unfold submission_of. rewrite assemble_scalar.
  - by rewrite Hb.
  - compute_done.
  - apply Hout; [compute_done|done].
Qed.

(** C3. With the unique email index of the persisting variant, two requests
    that are received without error and carry the same email value, the
    first against a collection that has no submission with that email and a
    database that takes the document: the first request is accepted and
    its submission stored; the save of the second fails with a persistence
    error, the reply is the generic 500, the collection is as the first
    request left it, and it holds exactly one submission with that email. *)
Theorem duplicate_email_rejected env req1 req2 w e
    body1 files1 wa body2 files2 wb :
  let r1 := submit_form Persisting env req1 w in
  let r2 := submit_form Persisting env req2 r1.2 in
  receive Persisting env req1 w = (Ok (body1, files1), wa) →
  receive Persisting env req2 r1.2 = (Ok (body2, files2), wb) →
  body1 !! "email" = Some (Text e) →
  body2 !! "email" = Some (Text e) →
  db_fault env (submission_of Persisting req1 body1 files1) = None →
  email_taken (store w)
    (strict (submission_of Persisting req1 body1 files1)) = false →
  (∃ d, accepted r1.1 (doc_id d) ∧ store r1.2 = store w ++ [d] ∧
        fields d !! "email" = Some (JStr e)) ∧
  (∃ detail,
     r2 = caught Persisting (PersistenceError detail)
            (set_next_id (N.succ (next_id wb)) wb)) ∧
  r2.1 = Ok internal_error ∧
  store r2.2 = store r1.2 ∧
  length (filter (λ d, fields d !! "email" = Some (JStr e)) (store r2.2)) = 1.
Proof.
  intros r1 r2 Hrecv1 Hrecv2 Hb1 Hb2 Hdb Hfree.
  pose proof (submission_email _ _ _ _ _ _ _ _ Hrecv1 Hb1) as He1.
  pose proof (submission_email _ _ _ _ _ _ _ _ Hrecv2 Hb2) as He2.
  pose proof (receive_frame Persisting env req1 w) as (Hst1 & _ & _).
  rewrite Hrecv1 in Hst1. simpl in Hst1.
  assert (∃ d, r1 = (Ok (mkReply 200 (SubmitOk (success_message Persisting)
                                        (doc_id d))),
                     set_ticks (S (ticks wa))
                       (set_store (store w ++ [d])
                          (set_next_id (N.succ (next_id wa)) wa))) ∧
               fields d = strict (submission_of Persisting req1 body1 files1))
    as (d & Hr1 & Hd).
  { subst r1. rewrite submit_form_cases, Hrecv1. simpl.
    rewrite Hdb, Hst1, Hfree. simpl.
    by eexists (mkStoredDoc _ _ _ _ _). }
  assert (store r1.2 = store w ++ [d]) as Hstore1 by by rewrite Hr1.
  assert (email_taken (store r1.2)
            (strict (submission_of Persisting req2 body2 files2)) = true)
    as Htaken.
  { rewrite Hstore1, email_taken_app. apply orb_true_iff. right.
    unfold email_taken. simpl. rewrite Hd, He1, He2.
    by rewrite bool_decide_eq_true_2. }
  destruct (persistence_errors_collapse Persisting env req2 r1.2
              body2 files2 wb Hrecv2) as (detail & Hr2 & Hstore2).
  { right. by rewrite Htaken. }
  fold r2 in Hr2, Hstore2.
  split; [|split; [|split; [|split]]].
  - exists d. rewrite Hr1 at 1. simpl. split; [by eexists|].
    split; [done|]. by rewrite Hd.
  - by exists detail.
  - by rewrite Hr2.
  - done.
  - rewrite Hstore2, Hstore1, filter_app, length_app.
    apply email_taken_false in Hfree. rewrite He1 in Hfree.
    rewrite filter_none by done.
    rewrite filter_cons, decide_True by by rewrite Hd. done.
Qed.

Lemma duplicate_email_rejected_witness :
  (submit_form Persisting test_env anna_again
     (submit_form Persisting test_env scalars_only empty_world).2).1
    = Ok internal_error ∧
  length (filter (λ d, fields d !! "email" = Some (JStr "a@x.com"))
            (store (submit_form Persisting test_env anna_again
                      (submit_form Persisting test_env scalars_only
                         empty_world).2).2)) = 1.
Proof.
  destruct (duplicate_email_rejected test_env scalars_only anna_again
              empty_world "a@x.com" scalars_body files_init empty_world
              second_body files_init
              (submit_form Persisting test_env scalars_only empty_world).2)
    as (_ & _ & H1 & _ & H2).
  - vm_compute. reflexivity.
  - vm_compute. reflexivity.
  - reflexivity.
  - reflexivity.
  - reflexivity.
  - reflexivity.
  - split; [exact H1|exact H2].
Defined.

(** ** The listing *)

#[global] Instance newer_first_total : Total newer_first.
Proof. intros a b. unfold newer_first. lia. Qed.

#[global] Instance newer_first_trans : Transitive newer_first.
Proof. intros a b c. unfold newer_first. lia. Qed.

Lemma select_excluded o k : k ∈ excluded → select o !! k = None.
Proof.
  unfold excluded, select. rewrite !elem_of_cons, elem_of_nil. simpl.
  intros [->|[->|[->|[->|[]]]]];
    repeat (rewrite lookup_delete_eq || rewrite lookup_delete_ne by done);
    done.
Qed.

Lemma select_kept o k : k ∉ excluded → select o !! k = o !! k.
Proof.
  unfold excluded, select. rewrite !not_elem_of_cons. simpl.
  intros (? & ? & ? & ? & _). by rewrite !lookup_delete_ne.
Qed.

Lemma listed_created d :
  (select ∘ lean) d !! "createdAt" = Some (JDate (createdAt d)).
Proof.
  unfold compose. rewrite select_kept by compute_done. unfold lean.
  rewrite lookup_insert_ne by done. apply lookup_insert_eq.
Qed.

Lemma listed_id d : (select ∘ lean) d !! "_id" = Some (JId (doc_id d)).
Proof.
  unfold compose. rewrite select_kept by compute_done. apply lookup_insert_eq.
Qed.

Lemma get_submissions_Ok v env w :
  find_fault env = None →
  get_submissions v env w
  = (Ok (mkReply 200
           (ListOk (length (merge_sort newer_first (store w)))
              ((select ∘ lean) <$> merge_sort newer_first (store w)))), w).
Proof.
  intros Hf. unfold get_submissions, find_all. unfold_M. rewrite Hf.
  by rewrite length_fmap.
Qed.

Lemma get_submissions_inv v env w n data w' :
  get_submissions v env w = (Ok (mkReply 200 (ListOk n data)), w') →
  data = (select ∘ lean) <$> merge_sort newer_first (store w).
Proof.
  unfold get_submissions, find_all. unfold_M.
  destruct (find_fault env); [done|]. by intros [= _ <- _].
Qed.

(** C6. Whatever the collection holds, when the query itself succeeds the
    listing replies with status 200 and with every persisted submission
    exactly once, newest first, and no returned record has [ipAddress],
    [userAgent] or the version key [__v]; on an empty collection the reply
    is a success with an empty sequence. *)
Theorem listing_newest_first_redacted v env w :
  find_fault env = None →
  ∃ data,
    get_submissions v env w
      = (Ok (mkReply 200 (ListOk (length data) data)), w) ∧
    data ≡ₚ (select ∘ lean) <$> store w ∧
    StronglySorted record_newer_first data ∧
    (∀ r, r ∈ data →
       r !! "ipAddress" = None ∧ r !! "userAgent" = None ∧ r !! "__v" = None) ∧
    (store w = [] → data = []).
Proof.
  intros Hf. exists ((select ∘ lean) <$> merge_sort newer_first (store w)).
  split; [|split; [|split; [|split]]].
  - rewrite get_submissions_Ok by done. by rewrite length_fmap.
  - apply fmap_Permutation, merge_sort_Permutation.
  - eapply StronglySorted_fmap; [|apply StronglySorted_merge_sort; apply _].
    intros a b Hab. exists (createdAt a), (createdAt b).
    by rewrite !listed_created.
  - intros r (d & -> & _)%list_elem_of_fmap. unfold compose.
    by rewrite !select_excluded by compute_done.
  - by intros ->.
Qed.

Lemma listing_newest_first_redacted_witness :
  ∃ data,
    get_submissions MetadataOnly test_env two_submissions
      = (Ok (mkReply 200 (ListOk (length data) data)), two_submissions) ∧
    data ≡ₚ (select ∘ lean) <$> store two_submissions ∧
    StronglySorted record_newer_first data ∧
    (∀ r, r ∈ data →
       r !! "ipAddress" = None ∧ r !! "userAgent" = None ∧ r !! "__v" = None) ∧
    (store two_submissions = [] → data = []).
Proof.
  apply (listing_newest_first_redacted MetadataOnly test_env two_submissions).
  reflexivity.
Defined.

(** C10. Every record the listing returns lacks [updatedAt] and still has
    the identifier and the creation time of the stored submission it comes
    from. *)
Theorem listing_keeps_identifier_and_creation v env w n data w' :
  get_submissions v env w = (Ok (mkReply 200 (ListOk n data)), w') →
  ∀ r, r ∈ data →
    r !! "updatedAt" = None ∧
    ∃ d, d ∈ store w ∧ r !! "_id" = Some (JId (doc_id d)) ∧
         r !! "createdAt" = Some (JDate (createdAt d)).
Proof.
  intros ->%get_submissions_inv r (d & -> & Hd)%list_elem_of_fmap.
  split; [unfold compose; by rewrite select_excluded by compute_done|].
  exists d. rewrite listed_id, listed_created. split; [|done].
  by rewrite merge_sort_Permutation in Hd.
Qed.

Lemma listing_keeps_identifier_and_creation_witness :
  first_listed !! "updatedAt" = None ∧
  ∃ d, d ∈ store two_submissions ∧
       first_listed !! "_id" = Some (JId (doc_id d)) ∧
       first_listed !! "createdAt" = Some (JDate (createdAt d)).
Proof.
  apply (listing_keeps_identifier_and_creation MetadataOnly test_env
           two_submissions 2 listed_two two_submissions).
  - vm_compute. reflexivity.
  - compute_done.
Defined.

(** * Further properties of the handlers *)

(** ** Provenance *)

Lemma or_default_nonempty h fallback :
  fallback ≠ "" → or_default h fallback ≠ "".
Proof.
  intros Hf. unfold or_default. destruct h as [s|]; [|done].
  destruct (truthy s) eqn:Hs; [by apply truthy_true|done].
Qed.

Lemma assemble_provenance body files i u :
  assemble body files i u !! "ipAddress" = Some (JStr i) ∧
  assemble body files i u !! "userAgent" = Some (JStr u).
Proof.
  unfold assemble. split.
  - rewrite lookup_insert_ne by done. apply lookup_insert_eq.
  - apply lookup_insert_eq.
Qed.

(** X1. The provenance of an accepted submission is the caller's: whatever
    the parts carry, the stored [ipAddress] is the address of the request
    and the stored [userAgent] is the header, or the variant's literal when
    the header is absent or empty; it is never the empty string. *)
Theorem provenance_of_accepted v env req w id :
  accepted (submit_form v env req w).1 id →
  ∃ d, store (submit_form v env req w).2 = store w ++ [d] ∧
       fields d !! "ipAddress" = Some (JStr (ip req)) ∧
       fields d !! "userAgent"
         = Some (JStr (or_default (user_agent req) (ua_fallback v))) ∧
       (user_agent req = None ∨ user_agent req = Some "" →
        fields d !! "userAgent" = Some (JStr (ua_fallback v))) ∧
       fields d !! "userAgent" ≠ Some (JStr "").
Proof.
  intros (body & files & w1 & t & Hrecv & _ & _ & Hst)%accepted_inv.
  eexists. split; [exact Hst|]. simpl.
  rewrite !strict_lookup by compute_done.
  destruct (assemble_provenance body files (ip req)
              (or_default (user_agent req) (ua_fallback v))) as [Hip Hua].
  unfold submission_of. rewrite Hip, Hua.
  split; [done|]. split; [done|]. split.
  - by intros [->| ->].
  - intros [= H]. revert H. apply or_default_nonempty. by destruct v.
Qed.

Lemma provenance_of_accepted_witness :
  ∃ d, store (submit_form Persisting test_env spoofed empty_world).2
         = store empty_world ++ [d] ∧
       fields d !! "ipAddress" = Some (JStr (ip spoofed)) ∧
       fields d !! "userAgent"
         = Some (JStr (or_default (user_agent spoofed)
                         (ua_fallback Persisting))) ∧
       (user_agent spoofed = None ∨ user_agent spoofed = Some "" →
        fields d !! "userAgent" = Some (JStr (ua_fallback Persisting))) ∧
       fields d !! "userAgent" ≠ Some (JStr "").
Proof.
  apply (provenance_of_accepted Persisting test_env spoofed empty_world 0).
  exists "Form submitted successfully!". vm_compute. reflexivity.
Defined.

(** ** What a request does to the collection, the console and the disk *)


(** X5. The console and the reply go together: an accepted request writes
    nothing to the console; a request answered with an error gets the one
    generic 500 reply, leaves the collection as it was and adds exactly one
    console line, the one of the [catch] block. *)
Theorem reply_and_console v env req w r w' :
  submit_form v env req w = (Ok r, w') →
  (∃ d, r = mkReply 200 (SubmitOk (success_message v) (doc_id d)) ∧
        store w' = store w ++ [d] ∧ console w' = console w) ∨
  (r = internal_error ∧ store w' = store w ∧
   ∃ e, console w' = console w ++ [catch_line v e]).
Proof.
  rewrite submit_form_cases.
  pose proof (receive_frame v env req w) as (Hst & Hco & _).
  destruct (receive v env req w) as [[[body files]| |] w1]; simpl in *;
    [| |done].
  - destruct (db_fault env _).
    { intros [= <- <-]. right. simpl. rewrite Hst, Hco. eauto. }
    destruct (email_unique v && email_taken _ _).
    { intros [= <- <-]. right. simpl. rewrite Hst, Hco. eauto. }
    intros [= <- <-]. left. eexists (mkStoredDoc _ _ _ _ _). simpl.
    by rewrite Hst, Hco.
  - intros [= <- <-]. right. simpl. rewrite Hst, Hco. eauto.
Qed.

Lemma reply_and_console_witness :
  (∃ d, internal_error
          = mkReply 200 (SubmitOk (success_message MetadataOnly) (doc_id d)) ∧
        store (submit_form MetadataOnly test_env anna_with_avatar
                 empty_world).2 = store empty_world ++ [d] ∧
        console (submit_form MetadataOnly test_env anna_with_avatar
                   empty_world).2 = console empty_world) ∨
  (internal_error = internal_error ∧
   store (submit_form MetadataOnly test_env anna_with_avatar empty_world).2
     = store empty_world ∧
   ∃ e, console (submit_form MetadataOnly test_env anna_with_avatar
                   empty_world).2
        = console empty_world ++ [catch_line MetadataOnly e]).
Proof.
  apply (reply_and_console MetadataOnly test_env anna_with_avatar empty_world).
  vm_compute. reflexivity.
Defined.

(** A relation between worlds that every iteration respects is respected
    by the whole loop, whatever its outcome. *)
Lemma for_await_world {S} (stp : S → Part → M S) (R : relation World)
    `{!Reflexive R, !Transitive R} :
  (∀ acc p w, R w (stp acc p w).2) →
  ∀ ps acc fault w, R w (for_await stp acc ps fault w).2.
Proof.
  intros Hstep. induction ps as [|p ps IH]; intros acc fault w; simpl.
  - by destruct fault.
  - unfold mbind, M_bind, bind. pose proof (Hstep acc p w) as H1.
    destruct (stp acc p w) as [[acc1| |] w1]; simpl in *; [|done..].
    etrans; [exact H1|apply IH].
Qed.

Lemma submit_form_fs v env req w :
  fs (submit_form v env req w).2 = fs (receive v env req w).2.
Proof.
  rewrite submit_form_cases.
  destruct (receive v env req w) as [[[body files]| |] w1]; simpl; [|done..].
  destruct (db_fault env _); [done|].
  by destruct (email_unique v && email_taken _ _).
Qed.

Lemma step_metadata_world acc p w : (step_metadata acc p w).2 = w.
Proof.
  destruct acc as [body files], p as [k name mime f|k x]; simpl;
    unfold_M; repeat (case_match; simplify_eq/=; try done); done.
Qed.

Lemma receive_metadata_world req w : (receive_metadata req w).2 = w.
Proof.
  unfold receive_metadata. symmetry.
  apply (for_await_world step_metadata eq).
  intros acc p w0. by rewrite step_metadata_world.
Qed.

(** X4. The metadata-only handler never touches the disk: whatever the
    request and whatever the outcome, the file system after the request is
    the file system before it. *)
Theorem metadata_only_leaves_disk env req w :
  fs (submit_form MetadataOnly env req w).2 = fs w.
Proof.
  rewrite submit_form_fs. simpl. by rewrite receive_metadata_world.
Qed.

#[global] Instance disk_grows_preorder : PreOrder disk_grows.
Proof. split; unfold disk_grows; [by intros w|intros a b c; set_solver]. Qed.

Lemma step_persisting_dom env acc p w :
  disk_grows w (step_persisting env acc p w).2.
Proof.
  unfold disk_grows.
  destruct acc as [body files], p as [k name mime f|k x]; simpl;
    unfold sink_persisting, pipe_and_wait; unfold_M; simpl;
    repeat (case_match; simplify_eq/=; try done);
    rewrite ?dom_insert_L; set_solver.
Qed.

(** X3. The persisting handler never removes a file: every path that
    exists before a request exists after it, whether the request was
    accepted, answered with an error or left without a reply. In
    particular the uploads of a request that is rejected are not cleaned
    up. *)
Theorem persisting_never_removes_files env req w :
  disk_grows w (submit_form Persisting env req w).2.
Proof.
  unfold disk_grows. rewrite submit_form_fs. simpl. unfold receive_persisting.
  apply (for_await_world (step_persisting env) disk_grows).
  apply step_persisting_dom.
Qed.

(** ** Requests that are not accepted *)





Lemma for_await_fault {S} (stp : S → Part → M S) d ps : ∀ acc w r w',
  for_await stp acc ps (Some d) w ≠ (Ok r, w').
Proof.
  induction ps as [|p ps IH]; intros acc w r w'; simpl; [done|].
  unfold mbind, M_bind, bind.
  destruct (stp acc p w) as [[acc1| |] w1]; [apply IH|done..].
Qed.

(** X7. A request whose part stream breaks (client abort, malformed body)
    is never accepted, however many well-formed parts came before the
    break: nothing is stored, and the reply, when there is one, is the
    generic 500. *)
Theorem broken_stream_is_never_accepted v env req w d :
  parts_fault req = Some d →
  store (submit_form v env req w).2 = store w ∧
  (∀ id, ¬ accepted (submit_form v env req w).1 id) ∧
  (∀ r, (submit_form v env req w).1 = Ok r → r = internal_error).
Proof.
  intros Hfault. rewrite submit_form_cases.
  pose proof (receive_frame v env req w) as (Hst & _ & _).
  destruct (receive v env req w) as [[[body files]| |] w1] eqn:Hrecv;
    simpl in Hst |- *.
  - exfalso. rewrite receive_unfold, Hfault in Hrecv.
    by apply for_await_fault in Hrecv.
  - split; [done|]. split; [by intros id [m [=]]|]. by intros r [= <-].
  - split; [done|]. split; [by intros id [m [=]]|]. by intros r [=].
Qed.

Lemma broken_stream_is_never_accepted_witness :
  store (submit_form Persisting test_env anna_cut empty_world).2
    = store empty_world ∧
  (∀ id, ¬ accepted (submit_form Persisting test_env anna_cut empty_world).1
           id) ∧
  (∀ r, (submit_form Persisting test_env anna_cut empty_world).1 = Ok r →
        r = internal_error).
Proof.
  apply (broken_stream_is_never_accepted Persisting test_env anna_cut
           empty_world "Premature close").
  reflexivity.
Defined.

Lemma for_await_prefix {S} (stp : S → Part → M S) ps : ∀ acc qs fault w acc1 w1,
  for_await stp acc ps None w = (Ok acc1, w1) →
  for_await stp acc (ps ++ qs) fault w = for_await stp acc1 qs fault w1.
Proof.
  induction ps as [|p ps IH]; intros acc qs fault w acc1 w1 H.
  - by apply for_await_nil in H as (_ & -> & ->).
  - apply for_await_cons in H as (acc0 & w0 & Hstep & Hrest).
    simpl. unfold mbind, M_bind, bind. rewrite Hstep. by apply IH.
Qed.

(** X8. In the persisting variant, when the stream of an upload errors
    before its end, the request is answered with the generic 500 and
    nothing is stored, the error is written to the console, and the bytes
    the stream delivered before the error stay in the file at the save
    path. *)
Theorem aborted_upload_leaves_partial_file env req w
    pre k name mime f post body1 files1 wa d :
  parts req = pre ++ FilePart k name mime f :: post →
  for_await (step_persisting env) (body_init, files_init) pre None w
    = (Ok (body1, files1), wa) →
  disk_fault env (savePath env (clock env (ticks wa)) name) = None →
  failure f = Some d →
  (submit_form Persisting env req w).1 = Ok internal_error ∧
  store (submit_form Persisting env req w).2 = store w ∧
  console (submit_form Persisting env req w).2
    = console w ++ [catch_line Persisting (StreamError d)] ∧
  fs (submit_form Persisting env req w).2
    !! savePath env (clock env (ticks wa)) name = Some (content f).
Proof.
  intros Hparts Hpre Hdisk Hfail.
  pose proof (for_await_frame Persisting env pre (body_init, files_init)
                None w) as (Hst & Hco & _).
  change (step Persisting env) with (step_persisting env) in Hst, Hco.
  rewrite Hpre in Hst, Hco. simpl in Hst, Hco.
  assert (receive Persisting env req w
          = (Throw (StreamError d),
             set_fs (<[savePath env (clock env (ticks wa)) name := content f]>
                       (fs wa)) (set_ticks (S (ticks wa)) wa))) as Hrecv.
  { simpl. unfold receive_persisting. rewrite Hparts.
    rewrite (for_await_prefix _ _ _ _ _ _ _ _ Hpre). simpl.
    unfold mbind, M_bind, bind, sink_persisting, pipe_and_wait. unfold_M.
    simpl. by rewrite Hdisk, Hfail. }
  rewrite submit_form_cases, Hrecv. simpl. rewrite Hst, Hco.
  repeat split; try done. apply lookup_insert_eq.
Qed.

Lemma aborted_upload_leaves_partial_file_witness :
  (submit_form Persisting test_env anna_aborted empty_world).1
    = Ok internal_error ∧
  store (submit_form Persisting test_env anna_aborted empty_world).2
    = store empty_world ∧
  console (submit_form Persisting test_env anna_aborted empty_world).2
    = console empty_world ++ [catch_line Persisting (StreamError "aborted")] ∧
  fs (submit_form Persisting test_env anna_aborted empty_world).2
    !! savePath test_env (clock test_env (ticks empty_world)) "id.pdf"
    = Some (content broken_upload).
Proof.
  apply (aborted_upload_leaves_partial_file test_env anna_aborted empty_world
           [FieldPart "email" (Text "a@x.com")] "identityDocument" "id.pdf"
           "application/pdf" broken_upload [] 
           (<["email" := Text "a@x.com"]> ∅) files_init empty_world "aborted").
  - reflexivity.
  - vm_compute. reflexivity.
  - reflexivity.
  - reflexivity.
Defined.

(** ** Uploads on disk *)




Lemma for_await_written env ps : ∀ body files fault w body' files' w',
  for_await (step_persisting env) (body, files) ps fault w
    = (Ok (body', files'), w') →
  ∀ sp, sp ∈ save_paths env (ticks w) ps → is_Some (fs w' !! sp).
Proof.
  induction ps as [|p ps IH]; intros body files fault w body' files' w' H sp Hsp.
  - by apply elem_of_nil in Hsp.
  - apply for_await_cons in H as ([body1 files1] & w1 & Hstep & Hrest).
    apply step_persisting_Ok in Hstep.
    destruct p as [k name mime f|k x]; simpl in *.
    + destruct Hstep as (-> & _ & _ & -> & _). simpl in *.
      apply elem_of_cons in Hsp as [->|Hsp]; [|by eapply IH].
      pose proof (for_await_world (step_persisting env) disk_grows
                    (step_persisting_dom env) ps (body, files1) fault
                    (set_fs
                       (<[savePath env (clock env (ticks w)) name:=content f]>
                          (fs w)) (set_ticks (S (ticks w)) w))) as Hgrow.
      rewrite Hrest in Hgrow. unfold disk_grows in Hgrow. simpl in Hgrow.
      apply elem_of_dom, Hgrow. rewrite dom_insert_L. set_solver.
    + destruct Hstep as (_ & -> & ->). by eapply IH.
Qed.

(** X10. In the persisting variant the uploads of a request are not undone
    when the save fails: if the parts were received and the database then
    refuses the document (or the email is taken), the reply is the generic
    500 and nothing is stored, yet every record that had been built for
    the submission still names a file that exists in the uploads
    directory. *)
Theorem rejected_submission_keeps_uploads env req w body files w1 :
  receive Persisting env req w = (Ok (body, files), w1) →
  (is_Some (db_fault env (submission_of Persisting req body files)) ∨
   email_taken (store w)
     (strict (submission_of Persisting req body files)) = true) →
  (submit_form Persisting env req w).1 = Ok internal_error ∧
  store (submit_form Persisting env req w).2 = store w ∧
  ∀ c l r, files !! c = Some l → r ∈ l →
    ∃ p, path r = Some p ∧
         is_Some (fs (submit_form Persisting env req w).2 !! p).
Proof.
  intros Hrecv Hfail.
  destruct (persistence_errors_collapse Persisting env req w body files w1
              Hrecv) as (d & Hrun & Hst).
  { destruct Hfail as [?| ->]; [by left|by right]. }
  rewrite Hrun at 1. split; [done|]. split; [done|].
  intros c l r Hl Hr. rewrite submit_form_fs, Hrecv. simpl.
  simpl in Hrecv. unfold receive_persisting in Hrecv.
  pose proof (for_await_disk env _ _ _ _ _ _ _ _ Hrecv) as (_ & _ & _ & Hrec).
  destruct (Hrec c l r Hl Hr) as [(l0 & Hl0 & Hr0)|(sp & Hsp & Hp)].
  - exfalso. destruct (decide (c ∈ categories)) as [Hc|Hc].
    + rewrite files_init_lookup in Hl0 by done. simplify_eq.
      by apply elem_of_nil in Hr0.
    + by rewrite files_init_None in Hl0.
  - exists sp. split; [done|]. by eapply for_await_written.
Qed.

Lemma rejected_submission_keeps_uploads_witness :
  (submit_form Persisting db_down_env anna empty_world).1 = Ok internal_error ∧
  store (submit_form Persisting db_down_env anna empty_world).2
    = store empty_world ∧
  ∀ c l r, anna_files !! c = Some l → r ∈ l →
    ∃ p, path r = Some p ∧
         is_Some (fs (submit_form Persisting db_down_env anna empty_world).2
                    !! p).
Proof.
  apply (rejected_submission_keeps_uploads db_down_env anna empty_world
           anna_body anna_files world_after_id).
  - vm_compute. reflexivity.
  - left. eexists. reflexivity.
Defined.

(** ** More on the listing *)

(** X11. The listing is read-only. When the query succeeds the world is
    left exactly as it was and the [count] of the reply is the number of
    stored submissions; when the query fails the reply is 500 with the
    fixed message, the collection and the disk are untouched and the
    console gets one line. *)
Theorem listing_is_read_only v env w :
  store (get_submissions v env w).2 = store w ∧
  fs (get_submissions v env w).2 = fs w ∧
  (find_fault env = None →
   ∃ data, get_submissions v env w
           = (Ok (mkReply 200 (ListOk (length (store w)) data)), w) ∧
           length data = length (store w)) ∧
  (∀ d, find_fault env = Some d →
   (get_submissions v env w).1
     = Ok (mkReply 500 (Failure "Failed to fetch submissions")) ∧
   length (console (get_submissions v env w).2) = S (length (console w))).
Proof.
  unfold get_submissions, find_all. unfold_M.
  destruct (find_fault env) as [d|]; simpl.
  - split; [done|]. split; [done|]. split; [done|].
    intros d' _. split; [done|]. rewrite length_app. simpl. lia.
  - split; [done|]. split; [done|]. split; [|done]. intros _.
    assert (length (merge_sort newer_first (store w)) = length (store w))
      as Hl by apply Permutation_length, merge_sort_Permutation.
    exists ((select ∘ lean) <$> merge_sort newer_first (store w)).
    by rewrite ?length_fmap, !Hl.
Qed.

(** X12. Apart from the four excluded keys, the listing returns each
    submission as it is stored: every returned record comes from a stored
    submission and agrees with its fields on every key other than [__v],
    [updatedAt], [ipAddress], [userAgent], [_id] and [createdAt], so
    scalars and file lists come back unchanged. *)
Theorem listing_returns_fields_unchanged v env w n data w' :
  get_submissions v env w = (Ok (mkReply 200 (ListOk n data)), w') →
  ∀ r, r ∈ data →
    ∃ d, d ∈ store w ∧
         ∀ k, k ∉ excluded → k ≠ "_id" → k ≠ "createdAt" →
              r !! k = fields d !! k.
Proof.
  intros ->%get_submissions_inv r (d & -> & Hd)%list_elem_of_fmap.
  exists d. split; [by rewrite merge_sort_Permutation in Hd|].
  intros k Hk Hid Hcr. unfold compose. rewrite select_kept by done.
  unfold lean. unfold excluded in Hk. rewrite !not_elem_of_cons in Hk.
  destruct Hk as (? & ? & _). by rewrite !lookup_insert_ne.
Qed.

Lemma listing_returns_fields_unchanged_witness :
  ∃ d, d ∈ store two_submissions ∧
       ∀ k, k ∉ excluded → k ≠ "_id" → k ≠ "createdAt" →
            first_listed !! k = fields d !! k.
Proof.
  apply (listing_returns_fields_unchanged MetadataOnly test_env
           two_submissions 2 listed_two two_submissions).
  - vm_compute. reflexivity.
  - compute_done.
Defined.

Lemma receive_last_scalar v env req w body files w1 pre k s post :
  receive v env req w = (Ok (body, files), w1) →
  parts req = pre ++ FieldPart k (Text s) :: post →
  Forall (λ p, writes_scalar k p = false) post →
  k ≠ "" → k ≠ "__proto__" →
  body !! k = Some (Text s).
Proof.
  intros Hrecv Hparts Hpost Hk Hproto.
  rewrite receive_unfold, Hparts in Hrecv.
  apply for_await_app in Hrecv
    as ([body1 files1] & wa & [body2 files2] & wb & _ & Hstep & Hrest).
  rewrite (for_await_body_other _ _ _ _ Hpost _ _ _ _ _ _ _ Hrest).
  rewrite step_scalar in Hstep by done. simplify_eq.
  by apply js_set_lookup.
Qed.

Lemma string_path_facts k :
  k ∈ string_paths →
  k ∈ schema_paths ∧ (k ∉ categories) ∧ (k ∉ provenance_paths) ∧
  (k ∉ excluded) ∧ k ≠ "" ∧ k ≠ "__proto__" ∧ k ≠ "_id" ∧ k ≠ "createdAt".
Proof.
  unfold string_paths. rewrite !elem_of_cons, elem_of_nil.
  intros H. repeat destruct H as [->|H]; try done;
    repeat split; try done; compute_done.
Qed.

(** X13. Submitting and then listing is a round trip. After an accepted
    request the listing has one record more than the collection had, and
    one of its records carries the identifier that was returned to the
    client, the file lists of the request under the six categories, and,
    for every [String] path of the schema, the text of the last scalar part
    sent under that name. The provenance of the request is not in that
    record. *)
Theorem submit_then_list v env req w id :
  accepted (submit_form v env req w).1 id →
  find_fault env = None →
  ∃ data r,
    (get_submissions v env (submit_form v env req w).2).1
      = Ok (mkReply 200 (ListOk (S (length (store w))) data)) ∧
    r ∈ data ∧
    r !! "_id" = Some (JId id) ∧
    r !! "ipAddress" = None ∧ r !! "userAgent" = None ∧
    (∀ c, c ∈ categories →
       ∃ l, r !! c = Some (JFiles l) ∧
            Forall2 (recorded v) (uploads_under c (parts req)) l) ∧
    (∀ pre k s post,
       parts req = pre ++ FieldPart k (Text s) :: post →
       Forall (λ p, writes_scalar k p = false) post →
       k ∈ string_paths → r !! k = Some (JStr s)).
Proof.
  intros (body & files & w1 & t & Hrecv & _ & _ & Hst)%accepted_inv Hfind.
  set (w' := (submit_form v env req w).2) in *.
  set (d := mkStoredDoc id t t 0 (strict (submission_of v req body files))) in *.
  pose proof (get_submissions_Ok v env w' Hfind) as Hrun.
  set (data := (select ∘ lean) <$> merge_sort newer_first (store w')) in *.
  assert (data = (select ∘ lean) <$> merge_sort newer_first (store w'))
    as Hdata by done.
  exists data, ((select ∘ lean) d). rewrite Hrun.
  split.
  { simpl. do 3 f_equal.
    rewrite (Permutation_length (merge_sort_Permutation _ _)).
    by rewrite Hst, length_app, Nat.add_1_r. }
  split.
  { rewrite Hdata. apply list_elem_of_fmap. exists d. split; [done|].
    rewrite merge_sort_Permutation, Hst. apply elem_of_app. right.
    by apply list_elem_of_singleton. }
  split; [apply listed_id|].
  unfold compose. rewrite !select_excluded by compute_done.
  split; [done|]. split; [done|]. split.
  - intros c Hc.
    destruct (receive_files v env req w body files w1 c Hrecv) as [Hin _].
    destruct (Hin Hc) as (l & Hl & HF). exists l. split; [|done].
    destruct (category_not_provenance _ Hc).
    rewrite select_kept.
    + unfold lean. rewrite !lookup_insert_ne.
      * simpl. rewrite strict_lookup by by apply category_in_schema.
        by apply assemble_category.
      * intros <-. revert Hc. compute_done.
      * intros <-. revert Hc. compute_done.
      * intros <-. revert Hc. compute_done.
      * intros <-. revert Hc. compute_done.
    + unfold excluded. rewrite !not_elem_of_cons.
      repeat split; try done; try (intros ->; revert Hc; compute_done).
      apply not_elem_of_nil.
  - intros pre k s post Hparts Hpost Hk.
    destruct (string_path_facts k Hk)
      as (Hs & Hcat & Hprov & Hex & Hne & Hproto & Hid & Hcr).
    pose proof (receive_last_scalar _ _ _ _ _ _ _ _ _ _ _ Hrecv Hparts Hpost
                  Hne Hproto) as Hbody.
    rewrite select_kept by done. unfold lean.
    unfold excluded in Hex. rewrite !not_elem_of_cons in Hex.
    destruct Hex as (? & ? & _). rewrite !lookup_insert_ne by done.
    simpl. rewrite strict_lookup by done.
    destruct (receive_files v env req w body files w1 k Hrecv) as [_ Hout].
    unfold submission_of. rewrite assemble_scalar by auto.
    by rewrite Hbody.
Qed.

Lemma submit_then_list_witness :
  ∃ data r,
    (get_submissions Persisting test_env
       (submit_form Persisting test_env anna empty_world).2).1
      = Ok (mkReply 200 (ListOk (S (length (store empty_world))) data)) ∧
    r ∈ data ∧
    r !! "_id" = Some (JId 0) ∧
    r !! "ipAddress" = None ∧ r !! "userAgent" = None ∧
    (∀ c, c ∈ categories →
       ∃ l, r !! c = Some (JFiles l) ∧
            Forall2 (recorded Persisting) (uploads_under c (parts anna)) l) ∧
    (∀ pre k s post,
       parts anna = pre ++ FieldPart k (Text s) :: post →
       Forall (λ p, writes_scalar k p = false) post →
       k ∈ string_paths → r !! k = Some (JStr s)).
Proof.
  apply (submit_then_list Persisting test_env anna empty_world 0).
  - exists "Form submitted successfully!". vm_compute. reflexivity.
  - reflexivity.
Defined.

(** ** The two variants side by side *)

(** X14. Without the unique index the store does no deduplication: in the
    metadata-only variant a request is accepted whenever its parts are
    received and the database takes the document, whatever the collection
    already holds, so two requests with the same email are both accepted
    and both stored. *)
Theorem metadata_only_keeps_duplicates env req1 req2 w e
    body1 files1 wa body2 files2 wb :
  let r1 := submit_form MetadataOnly env req1 w in
  let r2 := submit_form MetadataOnly env req2 r1.2 in
  receive MetadataOnly env req1 w = (Ok (body1, files1), wa) →
  receive MetadataOnly env req2 r1.2 = (Ok (body2, files2), wb) →
  body1 !! "email" = Some (Text e) →
  body2 !! "email" = Some (Text e) →
  db_fault env (submission_of MetadataOnly req1 body1 files1) = None →
  db_fault env (submission_of MetadataOnly req2 body2 files2) = None →
  ∃ d1 d2,
    accepted r1.1 (doc_id d1) ∧ accepted r2.1 (doc_id d2) ∧
    store r2.2 = store w ++ [d1; d2] ∧
    fields d1 !! "email" = Some (JStr e) ∧
    fields d2 !! "email" = Some (JStr e).
Proof.
  intros r1 r2 Hrecv1 Hrecv2 Hb1 Hb2 Hdb1 Hdb2.
  pose proof (submission_email _ _ _ _ _ _ _ _ Hrecv1 Hb1) as He1.
  pose proof (submission_email _ _ _ _ _ _ _ _ Hrecv2 Hb2) as He2.
  pose proof (receive_frame MetadataOnly env req1 w) as (Hst1 & _ & _).
  pose proof (receive_frame MetadataOnly env req2 r1.2) as (Hst2 & _ & _).
  rewrite Hrecv1 in Hst1. rewrite Hrecv2 in Hst2. simpl in Hst1, Hst2.
  subst r2. unfold r1 in *. clear r1.
  rewrite (submit_form_cases MetadataOnly env req2), Hrecv2.
  rewrite (submit_form_cases MetadataOnly env req1) in Hst2 |- *.
  rewrite Hrecv1 in Hst2 |- *. simpl in Hst2 |- *.
  rewrite Hdb1 in Hst2 |- *. rewrite Hdb2. simpl in Hst2 |- *.
  eexists (mkStoredDoc _ _ _ _ _), (mkStoredDoc _ _ _ _ _). simpl.
  split; [by eexists|]. split; [by eexists|].
  rewrite Hst2, Hst1, <-app_assoc. done.
Qed.

Lemma metadata_only_keeps_duplicates_witness :
  ∃ d1 d2,
    accepted (submit_form MetadataOnly test_env scalars_only empty_world).1
      (doc_id d1) ∧
    accepted
      (submit_form MetadataOnly test_env anna_again
         (submit_form MetadataOnly test_env scalars_only empty_world).2).1
      (doc_id d2) ∧
    store (submit_form MetadataOnly test_env anna_again
             (submit_form MetadataOnly test_env scalars_only empty_world).2).2
      = store empty_world ++ [d1; d2] ∧
    fields d1 !! "email" = Some (JStr "a@x.com") ∧
    fields d2 !! "email" = Some (JStr "a@x.com").
Proof.
  apply (metadata_only_keeps_duplicates test_env scalars_only anna_again
           empty_world "a@x.com" scalars_body files_init empty_world
           second_body files_init
           (submit_form MetadataOnly test_env scalars_only empty_world).2).
  - vm_compute. reflexivity.
  - vm_compute. reflexivity.
  - reflexivity.
  - reflexivity.
  - reflexivity.
  - reflexivity.
Defined.

Lemma for_await_scalars v env ps : ∀ body files fault w body' files' w',
  for_await (step v env) (body, files) ps fault w = (Ok (body', files'), w') →
  Forall (λ p, plain p = true) ps →
  body' = scalars_of body ps.
Proof.
  induction ps as [|p ps IH]; intros body files fault w body' files' w' H Hpl.
  - by apply for_await_nil in H as (_ & [= <- <-] & _).
  - apply for_await_cons in H as ([body1 files1] & w1 & Hstep & Hrest).
    apply Forall_cons in Hpl as [Hp Hpl].
    rewrite (IH _ _ _ _ _ _ _ Hrest Hpl). simpl. f_equal.
    destruct v; simpl in Hstep.
    + apply step_persisting_Ok in Hstep. destruct p; simpl in *.
      * by destruct Hstep as (-> & _).
      * by destruct Hstep as (-> & _).
    + apply step_metadata_Ok in Hstep as [_ Hstep]. destruct p; simpl in *.
      * by destruct Hstep as (-> & _).
      * destruct Hstep as (_ & ->). by rewrite Hp.
Qed.

(** X15. On requests made of file parts and of scalar parts with a
    non-empty name and a text value, the two variants assemble the same
    scalars: when both receive the request, their scalar maps are equal
    (the fold of the scalar parts in arrival order), and under every
    category their file lists name the same uploads with the same declared
    types, in the same order. *)
Theorem variants_agree_on_plain_requests env req w w0 b1 f1 w1 b2 f2 w2 :
  Forall (λ p, plain p = true) (parts req) →
  receive Persisting env req w = (Ok (b1, f1), w1) →
  receive MetadataOnly env req w0 = (Ok (b2, f2), w2) →
  b1 = b2 ∧ b1 = scalars_of body_init (parts req) ∧
  ∀ c, c ∈ categories →
    ∃ l1 l2, f1 !! c = Some l1 ∧ f2 !! c = Some l2 ∧
      (λ r, (originalname r, mimetype r)) <$> l1
      = (λ r, (originalname r, mimetype r)) <$> l2.
Proof.
  intros Hpl H1 H2.
  pose proof H1 as H1'. pose proof H2 as H2'.
  rewrite receive_unfold in H1', H2'.
  rewrite (for_await_scalars _ _ _ _ _ _ _ _ _ _ H1' Hpl).
  rewrite (for_await_scalars _ _ _ _ _ _ _ _ _ _ H2' Hpl).
  split; [done|]. split; [done|]. intros c Hc.
  destruct (receive_files _ _ _ _ _ _ _ c H1) as [Hin1 _].
  destruct (receive_files _ _ _ _ _ _ _ c H2) as [Hin2 _].
  destruct (Hin1 Hc) as (l1 & Hl1 & HF1). destruct (Hin2 Hc) as (l2 & Hl2 & HF2).
  exists l1, l2. split; [done|]. split; [done|].
  clear -HF1 HF2. revert l1 l2 HF1 HF2.
  induction (uploads_under c (parts req)) as [|u us IH]; intros l1 l2 HF1 HF2.
  - apply Forall2_nil_inv_l in HF1 as ->. by apply Forall2_nil_inv_l in HF2 as ->.
  - apply Forall2_cons_inv_l in HF1 as (r1 & l1' & (Ho1 & Hm1 & _) & HF1 & ->).
    apply Forall2_cons_inv_l in HF2 as (r2 & l2' & (Ho2 & Hm2 & _) & HF2 & ->).
    simpl. rewrite Ho1, Hm1, Ho2, Hm2. f_equal. by apply IH.
Qed.

Lemma variants_agree_on_plain_requests_witness :
  anna_body = anna_body ∧ anna_body = scalars_of body_init (parts anna) ∧
  ∀ c, c ∈ categories →
    ∃ l1 l2, anna_files !! c = Some l1 ∧
      <["identityDocument" := [id_record_metadata]]> files_init !! c
        = Some l2 ∧
      (λ r, (originalname r, mimetype r)) <$> l1
      = (λ r, (originalname r, mimetype r)) <$> l2.
Proof.
  apply (variants_agree_on_plain_requests test_env anna empty_world empty_world
           anna_body anna_files world_after_id anna_body
           (<["identityDocument" := [id_record_metadata]]> files_init)
           empty_world).
  - repeat constructor.
  - vm_compute. reflexivity.
  - vm_compute. reflexivity.
Defined.

Lemma js_set_lookup_Some {A} (o : gmap string A) f y k x :
  js_set o f y !! k = Some x →
  (k = f ∧ x = y ∧ f ≠ "__proto__") ∨ o !! k = Some x.
Proof.
  unfold js_set. case_bool_decide; [by right|].
  destruct (decide (f = k)) as [->|Hne].
  - rewrite lookup_insert_eq. intros [= ->]. by left.
  - rewrite lookup_insert_ne by done. by right.
Qed.

Lemma step_body_origin v env body files p w body' files' w' k x :
  step v env (body, files) p w = (Ok (body', files'), w') →
  body' !! k = Some x →
  body !! k = Some x ∨
  (p = FieldPart k x ∧ k ≠ "__proto__" ∧
   (v = MetadataOnly → k ≠ "" ∧ is_string x = true)).
Proof.
  intros Hstep Hk. destruct v; simpl in Hstep.
  - apply step_persisting_Ok in Hstep. destruct p as [|f y]; simpl in *.
    + destruct Hstep as (-> & _). by left.
    + destruct Hstep as (-> & _).
      apply js_set_lookup_Some in Hk as [(-> & -> & ?)|?]; [right|by left].
      by repeat split.
  - apply step_metadata_Ok in Hstep as [_ Hstep].
    destruct p as [|f y]; simpl in *.
    + destruct Hstep as (-> & _). by left.
    + destruct Hstep as (_ & ->).
      destruct (truthy f && is_string y) eqn:Hg; [|by left].
      apply andb_true_iff in Hg as [Hf%truthy_true Hy].
      apply js_set_lookup_Some in Hk as [(-> & -> & ?)|?]; [right|by left].
      by repeat split.
Qed.

(** X16. The assembler never invents a scalar: in either variant every
    entry of the scalar map of a received request is the name and value of
    one of the request's scalar parts, and no entry is named [__proto__].
    In the metadata-only variant, moreover, every entry has a non-empty
    name and a text value: scalar parts without a name or with a value
    that is not a string are left out. *)
Theorem scalar_map_comes_from_parts v env req w body files w1 k x :
  receive v env req w = (Ok (body, files), w1) →
  body !! k = Some x →
  FieldPart k x ∈ parts req ∧ k ≠ "__proto__" ∧
  (v = MetadataOnly → k ≠ "" ∧ is_string x = true).
Proof.
  rewrite receive_unfold. intros Hrecv Hk.
  assert (∀ ps b fl fault w0 b' fl' w',
            for_await (step v env) (b, fl) ps fault w0 = (Ok (b', fl'), w') →
            b' !! k = Some x →
            b !! k = Some x ∨
            (FieldPart k x ∈ ps ∧ k ≠ "__proto__" ∧
             (v = MetadataOnly → k ≠ "" ∧ is_string x = true))) as Hgen.
  { induction ps as [|p ps IH]; intros b fl fault w0 b' fl' w' H Hb'.
    - apply for_await_nil in H as (_ & [= <- <-] & _). by left.
    - apply for_await_cons in H as ([b1 fl1] & w2 & Hstep & Hrest).
      destruct (IH _ _ _ _ _ _ _ Hrest Hb') as [Hb1|(Hin & ? & ?)].
      + destruct (step_body_origin _ _ _ _ _ _ _ _ _ _ _ Hstep Hb1)
          as [?|(-> & ? & ?)]; [by left|right].
        split; [by left|done].
      + right. split; [by right|done]. }
  destruct (Hgen _ _ _ _ _ _ _ _ Hrecv Hk) as [Hinit|?]; [|done].
  unfold body_init in Hinit. by rewrite lookup_empty in Hinit.
Qed.

Lemma scalar_map_comes_from_parts_witness :
  FieldPart "email" (Text "a@x.com") ∈ parts scalars_only ∧
  "email" ≠ "__proto__" ∧
  (MetadataOnly = MetadataOnly →
   "email" ≠ "" ∧ is_string (Text "a@x.com") = true).
Proof.
  apply (scalar_map_comes_from_parts MetadataOnly test_env scalars_only
           empty_world scalars_body files_init empty_world).
  - vm_compute. reflexivity.
  - reflexivity.
Defined.

(** X17. Without an API key in the environment (unset or empty)
    [sendEmail] rejects with the configuration error before doing anything:
    the provider is not called and nothing is written to the console,
    whatever the submission. *)
Theorem sendEmail_requires_key menv submission w :
  process_env menv !! "RESEND_API_KEY" = None ∨
  process_env menv !! "RESEND_API_KEY" = Some "" →
  sendEmail menv submission w = (Rejected missing_key, w).
Proof. unfold sendEmail. by intros [-> | ->]. Qed.

Lemma sendEmail_requires_key_witness :
  sendEmail (mkMailEnv ∅ provider_up) anna_stored no_mail
  = (Rejected missing_key, no_mail).
Proof.
  apply (sendEmail_requires_key (mkMailEnv ∅ provider_up) anna_stored no_mail).
  left. reflexivity.
Defined.



(** X19. The server listens only behind a database connection. Whatever
    the surroundings, [startServer] first calls [connect] with
    [MONGODB_URI]; it calls [listen] at most once, only after the
    connection succeeded (and, in the metadata-only variant, after [ready]
    succeeded), on [PORT] from the environment or 5001 and on the host of
    the variant; the process keeps running exactly when none of the calls
    failed, and otherwise ends with exit code 1, the last console line being
    the error of the call that failed. *)
Theorem startServer_outcomes v benv w :
  let r := startServer v benv w in
  (∃ rest, boot_calls r.2
           = boot_calls w ++ CallConnect (MONGODB_URI benv) :: rest ∧
     (rest = [] ∨ rest = [CallReady] ∨
      rest = [CallListen (PORT benv) (listen_host v)] ∨
      rest = [CallReady; CallListen (PORT benv) (listen_host v)]) ∧
     (∀ p h, CallListen p h ∈ rest →
        connect_fault benv (MONGODB_URI benv) = None ∧
        (v = MetadataOnly → ready_fault benv = None))) ∧
  (r.1 = Running ↔
   connect_fault benv (MONGODB_URI benv) = None ∧
   (v = MetadataOnly → ready_fault benv = None) ∧
   listen_fault benv (PORT benv) (listen_host v) = None) ∧
  (∀ c, r.1 = Exited c →
     c = 1 ∧
     ∃ m, (connect_fault benv (MONGODB_URI benv) = Some m ∧
           last (boot_console r.2)
             = Some ("❌ MongoDB connection error: " +:+ m)) ∨
          (connect_fault benv (MONGODB_URI benv) = None ∧
           last (boot_console r.2)
             = Some ("❌ Failed to start server: " +:+ m))).
Proof.
  unfold startServer, connectDB, listen_and_report, start_failed.
  destruct (connect_fault benv _) as [m|] eqn:Hc; simpl.
  { split; [exists []; split; [done|]; split; [by left|]|].
    - intros p h Hin. by apply elem_of_nil in Hin.
    - split; [split; [done|by intros [? _]]|].
      intros c [= <-]. split; [done|]. exists m. left.
      by rewrite last_snoc. }
  destruct v; simpl.
  - destruct (listen_fault benv _ _) as [m|] eqn:Hl; simpl.
    + split.
      { eexists [_]. rewrite <-app_assoc. split; [done|].
        split; [by right; right; left|]. done. }
      split; [split; [done|by intros (_ & _ & ?)]|].
      intros c [= <-]. split; [done|]. exists m. right.
      by rewrite last_snoc.
    + split.
      { eexists [_]. rewrite <-app_assoc. split; [done|].
        split; [by right; right; left|]. done. }
      split; [done|]. done.
  - destruct (ready_fault benv) as [m|] eqn:Hr; simpl.
    + split.
      { eexists [_]. rewrite <-app_assoc. split; [done|].
        split; [by right; left|]. intros p h Hin.
        apply list_elem_of_singleton in Hin. done. }
      split; [split; [done|intros (_ & H & _); by specialize (H eq_refl)]|].
      intros c [= <-]. split; [done|]. exists m. right.
      by rewrite last_snoc.
    + destruct (listen_fault benv _ _) as [m|] eqn:Hl; simpl.
      * split.
        { eexists [_; _]. rewrite <-!app_assoc. split; [done|].
          split; [by right; right; right|]. done. }
        split; [split; [done|by intros (_ & _ & ?)]|].
        intros c [= <-]. split; [done|]. exists m. right.
        by rewrite last_snoc.
      * split.
        { eexists [_; _]. rewrite <-!app_assoc. split; [done|].
          split; [by right; right; right|]. done. }
        split; [done|]. done.
Qed.

(** ** The newest submission *)

#[global] Instance clock_advances_preorder : PreOrder clock_advances.
Proof. split; unfold clock_advances; [by intros w|intros a b c; lia]. Qed.





